(** * minard_vis.py: the combined Minard chart, embedded and verified

    The script reads three CSV tables (troops, temperature, cities), coerces
    their numeric columns, sorts them, checks the required columns and draws
    one figure.  This file embeds it function by function:

    - Python exceptions are an explicit [result] type;
    - matplotlib calls are events appended to a trace ([drawing] monad); of
      matplotlib's own failures the check of the axis limits is embedded,
      drawing, layout and writing the file are taken to succeed;
    - a pandas DataFrame is an ordered list of column names and a list of
      rows, each row a finite map from column name to cell; a cell holds an
      int64, a float64 or text;
    - float arithmetic is an interface [Float64] with two instances:
      IEEE binary64 ([float], executable, used to run the program on
      concrete tables) and the reals extended with NaN ([real64], used for
      the algebraic laws, where rounding, overflow and infinities are left
      out);
    - text is UTF-8, and [str.upper] works on its code points through the
      upper-case mapping of the Unicode character database, an interface
      [CaseMapping]. *)

From Stdlib Require Uint63.
From Stdlib Require Import ZArith Ascii String PrimFloat Reals Lra.
From stdpp Require Import base option list sorting gmap strings.

Set Default Proof Using "Type".

(** ** Python exceptions *)

Inductive exn : Type :=
  | KeyError (key : string)
  | ValueError (msg : string)
  | IndexError
  | TypeError
  | ZeroDivisionError
  | OverflowError (msg : string)
  | FileNotFoundError (path : string).

Inductive result (A : Type) : Type :=
  | Ok (a : A)
  | Raise (e : exn).
Arguments Ok {A} a.
Arguments Raise {A} e.

Global Instance result_ret : MRet result := λ A a, Ok a.
Global Instance result_bind : MBind result := λ A B f m,
  match m with
  | Ok a => f a
  | Raise e => Raise e
  end.

Global Instance result_fmap : FMap result := λ A B f m,
  match m with
  | Ok a => Ok (f a)
  | Raise e => Raise e
  end.

(** ** Float arithmetic as an interface *)

Class Float64 (F : Type) : Type := {
  fadd : F → F → F;
  fsub : F → F → F;
  fmul : F → F → F;
  (** numpy's division: never traps, [0/0] is NaN *)
  fdiv : F → F → F;
  (** [np.sqrt]: NaN on a negative argument *)
  fsqrt : F → F;
  (** [==] and [<], both false as soon as one side is NaN *)
  feqb : F → F → bool;
  fltb : F → F → bool;
  fis_nan : F → bool;
  (** plus or minus infinity *)
  fis_inf : F → bool;
  fnan : F;
  (** the decimal literal [m / 10^k], as [2.3 = fdec 23 1] *)
  fdec : Z → nat → F;
  (** the float nearest to a whole number: [float(z)], and what a whole
      number becomes in a float64 column *)
  fof_int : Z → F;
  (** the text-to-number conversion of [pd.to_numeric]; [None] when the text
      is not a number *)
  fparse : string → option F;
  (** the same for text that [pd.to_numeric] reads as a whole number within
      int64; [None] for all other text *)
  fparse_int : string → option Z
}.

(** Plain decimal numerals: optional sign, digits, optional fraction.  Both
    instances below read numbers this way, which is enough for the sample
    tables ([pd.to_numeric] reads more: exponents, a leading [+], blanks
    around the number, [inf]); the theorems about [to_numeric] hold for any
    [fparse] and [fparse_int]. *)
Definition digit_of (a : ascii) : option Z :=
  let n := Z.of_nat (nat_of_ascii a) in
  if bool_decide (48 ≤ n ≤ 57)%Z then Some (n - 48)%Z else None.

Fixpoint parse_digits (acc : Z) (s : string) : option (Z * string) :=
  match s with
  | EmptyString => Some (acc, EmptyString)
  | String a s' =>
      match digit_of a with
      | Some d => parse_digits (10 * acc + d) s'
      | None => Some (acc, s)
      end
  end.

Definition parse_unsigned (s : string) : option (Z * nat) :=
  match s with
  | EmptyString => None
  | String a _ =>
      match digit_of a with
      | None => None
      | Some _ =>
          '(i, rest) ← parse_digits 0 s;
          match rest with
          | EmptyString => Some (i, 0)
          | String "." frac =>
              '(m, rest') ← parse_digits i frac;
              match rest' with
              | EmptyString => Some (m, String.length frac)
              | _ => None
              end
          | _ => None
          end
      end
  end.

Definition parse_decimal (s : string) : option (Z * nat) :=
  match s with
  | String "-" s' => '(m, k) ← parse_unsigned s'; Some ((- m)%Z, k)
  | _ => parse_unsigned s
  end.

(** Whole numbers: optional sign and digits, within int64. *)
Definition parse_unsigned_int (s : string) : option Z :=
  match s with
  | EmptyString => None
  | _ =>
      '(i, rest) ← parse_digits 0 s;
      match rest with
      | EmptyString => Some i
      | _ => None
      end
  end.

Definition parse_int64 (s : string) : option Z :=
  z ← match s with
      | String "-" s' => Z.opp <$> parse_unsigned_int s'
      | _ => parse_unsigned_int s
      end;
  if bool_decide (- 2 ^ 63 ≤ z < 2 ^ 63)%Z then Some z else None.

(** *** IEEE binary64 *)

(** The float nearest to a whole number, ties to even.  Below 2^63 the
    primitive conversion rounds; above, the leading 63 bits are converted with
    the rest folded into the last bit, and the result is scaled back. *)
Definition float_of_pos (m : Z) : float :=
  if (m <? 2 ^ 63)%Z then PrimFloat.of_uint63 (Uint63.of_Z m)
  else
    let k := (Z.log2 m - 62)%Z in
    let top := Z.shiftr m k in
    let sticky := if (Z.land m (2 ^ k - 1) =? 0)%Z then 0%Z else 1%Z in
    Z.iter k (PrimFloat.mul 2) (PrimFloat.of_uint63 (Uint63.of_Z (Z.lor top sticky))).

Definition float_of_Z (m : Z) : float :=
  if (m <? 0)%Z then PrimFloat.opp (float_of_pos (- m)) else float_of_pos m.

Definition float_dec (m : Z) (k : nat) : float :=
  PrimFloat.div (float_of_Z m) (float_of_Z (10 ^ Z.of_nat k)).

Global Instance float_Float64 : Float64 float := {|
  fadd := PrimFloat.add;
  fsub := PrimFloat.sub;
  fmul := PrimFloat.mul;
  fdiv := PrimFloat.div;
  fsqrt := PrimFloat.sqrt;
  feqb := PrimFloat.eqb;
  fltb := PrimFloat.ltb;
  fis_nan := PrimFloat.is_nan;
  fis_inf := PrimFloat.is_infinity;
  fnan := PrimFloat.nan;
  fdec := float_dec;
  fof_int := float_of_Z;
  fparse := λ s, '(m, k) ← parse_decimal s; Some (float_dec m k);
  fparse_int := parse_int64
|}.

(** *** Reals with NaN

    A finite float read as the real number it denotes.  There is no rounding
    and no infinity: a division of a non-zero number by zero, which numpy
    answers with an infinity, is NaN here.  The program divides by zero only
    where the numerator is zero or NaN too. *)

Inductive real64 : Type :=
  | Fin (x : R)
  | NaN.

Definition real64_lift2 (f : R → R → R) (a b : real64) : real64 :=
  match a, b with
  | Fin x, Fin y => Fin (f x y)
  | _, _ => NaN
  end.

Definition real64_div (a b : real64) : real64 :=
  match a, b with
  | Fin x, Fin y => if Req_dec_T y 0 then NaN else Fin (x / y)
  | _, _ => NaN
  end.

Definition real64_sqrt (a : real64) : real64 :=
  match a with
  | Fin x => if Rlt_dec x 0 then NaN else Fin (sqrt x)
  | NaN => NaN
  end.

Definition real64_eqb (a b : real64) : bool :=
  match a, b with
  | Fin x, Fin y => if Req_dec_T x y then true else false
  | _, _ => false
  end.

Definition real64_ltb (a b : real64) : bool :=
  match a, b with
  | Fin x, Fin y => if Rlt_dec x y then true else false
  | _, _ => false
  end.

Definition real64_dec (m : Z) (k : nat) : real64 := Fin (IZR m / 10 ^ k).

Global Instance real64_Float64 : Float64 real64 := {|
  fadd := real64_lift2 Rplus;
  fsub := real64_lift2 Rminus;
  fmul := real64_lift2 Rmult;
  fdiv := real64_div;
  fsqrt := real64_sqrt;
  feqb := real64_eqb;
  fltb := real64_ltb;
  fis_nan := λ a, match a with Fin _ => false | NaN => true end;
  fis_inf := λ _, false;
  fnan := NaN;
  fdec := real64_dec;
  fof_int := λ z, Fin (IZR z);
  fparse := λ s, '(m, k) ← parse_decimal s; Some (real64_dec m k);
  fparse_int := parse_int64
|}.

(** Equality of reals is decidable, classically. *)
Global Instance R_eq_dec : EqDecision R := Req_dec_T.
Global Instance real64_eq_dec : EqDecision real64.
Proof. solve_decision. Defined.

(** ** Tables *)

(** A cell holds what pandas holds there: a float64, an int64 or text.  A
    column that [read_csv] or [pd.to_numeric] made holds one kind of number:
    whole numbers are int64 where every entry of the column is one, and
    float64 otherwise.  NaN is pandas' missing value, also in a column of
    text.  Columns of other types (uint64 for whole numbers from 2^63 on,
    bool, dates) have no counterpart here. *)
Inductive cell (F : Type) : Type :=
  | CNum (x : F)
  | CInt (z : Z)
  | CStr (s : string).
Arguments CNum {F} x.
Arguments CInt {F} z.
Arguments CStr {F} s.

Global Instance cell_eq_dec {F} `{EqDecision F} : EqDecision (cell F).
Proof. solve_decision. Defined.

(** A DataFrame: the column names in order and the rows in order. *)
Record DataFrame (F : Type) : Type := mkDF {
  columns : list string;
  rows : list (gmap string (cell F))
}.
Arguments mkDF {F} columns rows.
Arguments columns {F} d.
Arguments rows {F} d.

(** One row of a DataFrame as [iloc] and [iterrows] hand it out: a Series
    indexed by the column names. *)
Record Series (F : Type) : Type := mkSeries {
  index : list string;
  values : gmap string (cell F)
}.
Arguments mkSeries {F} index values.
Arguments index {F} s.
Arguments values {F} s.

(** ** The figure: what is drawn, in order *)

Inductive linestyle : Type := Solid | Dashed | Dotted.

Inductive text (F : Type) : Type :=
  (** [str(c)] *)
  | StrOf (c : cell F)
  (** [f'{int(t)}° {date_label}'.strip()]; no date column is [None] *)
  | TempLabel (t : cell F) (date_label : option (cell F)).
Arguments StrOf {F} c.
Arguments TempLabel {F} t date_label.

Inductive draw_op (F : Type) : Type :=
  | Subplots
  | SetPropCycle
  | Plot (xs ys : list (cell F)) (linewidth : F) (ls : linestyle)
         (marker : option string) (label : option string)
  | Scatter (xs ys : list (cell F)) (label : string)
  | Text (x y : F) (s : text F)
  | SetTitle
  | SetXLabel (s : string)
  | SetYLabel (s : string)
  | Legend
  | SetXLim (lo hi : F)
  | SetYLim (lo hi : F)
  | Grid
  | TightLayout
  | SaveFig (out_file : string)
  | PrintOut (msg : string).
Arguments Subplots {F}.
Arguments SetPropCycle {F}.
Arguments Plot {F} xs ys linewidth ls marker label.
Arguments Scatter {F} xs ys label.
Arguments Text {F} x y s.
Arguments SetTitle {F}.
Arguments SetXLabel {F} s.
Arguments SetYLabel {F} s.
Arguments Legend {F}.
Arguments SetXLim {F} lo hi.
Arguments SetYLim {F} lo hi.
Arguments Grid {F}.
Arguments TightLayout {F}.
Arguments SaveFig {F} out_file.
Arguments PrintOut {F} msg.

(** A computation that draws: the operations issued so far and either a value
    or the exception that stopped it. *)
Definition drawing (F A : Type) : Type := list (draw_op F) * result A.

Global Instance drawing_ret {F} : MRet (drawing F) := λ A a, ([], Ok a).
Global Instance drawing_bind {F} : MBind (drawing F) := λ A B f m,
  match m with
  | (t, Ok a) => let '(t', r) := f a in (t ++ t', r)
  | (t, Raise e) => (t, Raise e)
  end.

Definition lift {F A} (m : result A) : drawing F A := ([], m).
Definition emit {F} (op : draw_op F) : drawing F unit := ([op], Ok tt).

Fixpoint for_each {F A} (l : list A) (body : A → drawing F unit) : drawing F unit :=
  match l with
  | [] => mret tt
  | x :: l' => body x;; for_each l' body
  end.

(** [m] run after the operations [t] were issued. *)
Definition after {F A} (t : list (draw_op F)) (m : drawing F A) : drawing F A :=
  (t ++ m.1, m.2).

(** ** Text: code points, [str.upper] and [str.startswith] *)

(** A Python string is a sequence of code points; a table holds it in
    UTF-8.  Bytes that are not UTF-8 stand for themselves: [read_csv] does
    not let such text through. *)
Fixpoint utf8_decode (bs : list N) : list N :=
  match bs with
  | [] => []
  | b :: bs1 =>
      if bool_decide (192 ≤ b < 224)%N then
        match bs1 with
        | b1 :: bs2 => ((b mod 32) * 64 + b1 mod 64)%N :: utf8_decode bs2
        | [] => [b]
        end
      else if bool_decide (224 ≤ b < 240)%N then
        match bs1 with
        | b1 :: b2 :: bs3 =>
            ((b mod 16) * 4096 + (b1 mod 64) * 64 + b2 mod 64)%N :: utf8_decode bs3
        | _ => b :: utf8_decode bs1
        end
      else if bool_decide (240 ≤ b < 248)%N then
        match bs1 with
        | b1 :: b2 :: b3 :: bs4 =>
            ((b mod 8) * 262144 + (b1 mod 64) * 4096 + (b2 mod 64) * 64 + b3 mod 64)%N
            :: utf8_decode bs4
        | _ => b :: utf8_decode bs1
        end
      else b :: utf8_decode bs1
  end.

Definition code_points (s : string) : list N :=
  utf8_decode (N_of_ascii <$> list_ascii_of_string s).

(** The full upper-case mapping of the Unicode character database, which
    [str.upper] applies to each code point: the code points the upper case of
    a code point consists of (one as a rule, up to three). *)
Class CaseMapping : Type := toupper_full : N → list N.

(** [s.upper()] *)
Definition upper `{CaseMapping} (s : list N) : list N := List.flat_map toupper_full s.

(** [s.startswith(p)] *)
Fixpoint startswith (s p : list N) {struct p} : bool :=
  match p, s with
  | [], _ => true
  | c :: p', c' :: s' => bool_decide (c = c') && startswith s' p'
  | _ :: _, [] => false
  end.

(** The mapping on what the sample tables are written in: the ASCII letters,
    and [ẚ] (U+1E9A), whose upper case is [Aʾ] (U+0041 U+02BE).  Every other
    code point is left as it is; the theorems hold for any mapping. *)
Definition toupper_latin (c : N) : list N :=
  if bool_decide (97 ≤ c ≤ 122)%N then [(c - 32)%N]
  else if bool_decide (c = 7834)%N then [65; 702]%N
  else [c].

Definition latin_case_mapping : CaseMapping := toupper_latin.

(** ** Sorting and grouping, generic part *)

Definition le_of {A} (leb : A → A → bool) : relation A := λ a b, Is_true (leb a b).

Global Instance le_of_dec {A} (leb : A → A → bool) a b : Decision (le_of leb a b).
Proof. unfold le_of. apply _. Defined.

(** first occurrences, in order *)
Fixpoint uniq {A} (eqb : A → A → bool) (l : list A) : list A :=
  match l with
  | [] => []
  | x :: l' => x :: List.filter (λ y, negb (eqb x y)) (uniq eqb l')
  end.

(** Two's complement: what an int64 sum is when it leaves the range. *)
Definition wrap64 (z : Z) : Z := ((z + 2 ^ 63) mod 2 ^ 64 - 2 ^ 63)%Z.

(** ** The program *)

Section Program.
Context {F : Type} {arith : Float64 F} {unicode : CaseMapping}.

Abbreviation Row := (gmap string (cell F)).

(** *** pandas operations the script calls *)

(** A field that a row lacks is a missing value. *)
Definition cell_at (r : Row) (c : string) : cell F :=
  default (CNum fnan) (r !! c).

(** [df[c]] *)
Definition getitem (df : DataFrame F) (c : string) : result (list (cell F)) :=
  if bool_decide (c ∈ columns df) then Ok ((λ r, cell_at r c) <$> rows df)
  else Raise (KeyError c).

(** [df[c] = s] *)
Definition setitem (df : DataFrame F) (c : string) (s : list (cell F))
    : result (DataFrame F) :=
  if bool_decide (length s = length (rows df)) then
    Ok (mkDF (if bool_decide (c ∈ columns df) then columns df else columns df ++ [c])
             (zip_with (λ r v, <[c:=v]> r) (rows df) s))
  else Raise (ValueError "Length of values does not match length of index").

(** [df.drop(columns=[c])] *)
Definition drop (df : DataFrame F) (c : string) : result (DataFrame F) :=
  if bool_decide (c ∈ columns df) then
    Ok (mkDF (List.filter (λ c', negb (String.eqb c c')) (columns df))
             (delete c <$> rows df))
  else Raise (KeyError c).

(** [pd.to_numeric(s, errors="coerce")] decides on the whole column.  When
    every entry is a whole number (an int64, or text that reads as one) the
    result is an int64 column.  Otherwise it is a float64 column: floats
    stay, whole numbers become the nearest float, text is read as a number,
    and text that is no number becomes NaN. *)
Definition as_int64 (v : cell F) : option Z :=
  match v with
  | CNum _ => None
  | CInt z => Some z
  | CStr s => fparse_int s
  end.

Definition coerce_cell (v : cell F) : cell F :=
  match v with
  | CNum x => CNum x
  | CInt z => CNum (fof_int z)
  | CStr s => CNum (default fnan (fparse s))
  end.

Definition pd_to_numeric (s : list (cell F)) : list (cell F) :=
  match mapM as_int64 s with
  | Some zs => CInt <$> zs
  | None => coerce_cell <$> s
  end.

(** The float a cell stands for where numpy works in float64; NaN for
    text. *)
Definition float_of_cell (v : cell F) : F :=
  match v with
  | CNum x => x
  | CInt z => fof_int z
  | CStr _ => fnan
  end.

(** The order of [sort_values]: ascending, missing values last.  Columns
    read from a CSV hold numbers or text, not both, and numbers of one kind;
    between text and numbers the order here puts numbers first, and an int64
    is compared with a float64 as a float.  Ties keep the order of the table
    here, which pandas promises for a sort on several columns only; the
    theorems on sorted tables assert the order and the permutation. *)
Definition cell_is_nan (v : cell F) : bool :=
  match v with
  | CNum x => fis_nan x
  | CInt _ => false
  | CStr _ => false
  end.

Definition cell_ltb (a b : cell F) : bool :=
  match a, b with
  | CInt x, CInt y => (x <? y)%Z
  | CStr s, CStr t => String.ltb s t
  | CStr _, _ => cell_is_nan b
  | _, CStr _ => negb (cell_is_nan a)
  | _, _ =>
      if cell_is_nan a then false
      else if cell_is_nan b then true
      else fltb (float_of_cell a) (float_of_cell b)
  end.

Definition cell_eqb (a b : cell F) : bool :=
  match a, b with
  | CNum x, CNum y => feqb x y
  | CInt x, CInt y => (x =? y)%Z
  | CStr s, CStr t => String.eqb s t
  | _, _ => false
  end.

Fixpoint rows_leb (by_ : list string) (r1 r2 : Row) : bool :=
  match by_ with
  | [] => true
  | c :: cs =>
      if cell_ltb (cell_at r1 c) (cell_at r2 c) then true
      else if cell_ltb (cell_at r2 c) (cell_at r1 c) then false
      else rows_leb cs r1 r2
  end.

Definition sort_rows (by_ : list string) (l : list Row) : list Row :=
  merge_sort (le_of (rows_leb by_)) l.

(** [df.sort_values(by).reset_index(drop=True)]; rows are addressed by
    position, so resetting the index changes nothing here. *)
Definition sort_values (df : DataFrame F) (by_ : list string) : result (DataFrame F) :=
  match List.find (λ c, negb (bool_decide (c ∈ columns df))) by_ with
  | Some c => Raise (KeyError c)
  | None => Ok (mkDF (columns df) (sort_rows by_ (rows df)))
  end.

(** [df.groupby(["group", "direction"])]: rows with a missing key are left
    out, the groups come in ascending key order, and each group keeps its
    rows in table order. *)
Definition group_key (r : Row) : option (cell F * cell F) :=
  let g := cell_at r "group" in
  let d := cell_at r "direction" in
  if cell_is_nan g || cell_is_nan d then None else Some (g, d).

Definition key_eqb (k1 k2 : cell F * cell F) : bool :=
  cell_eqb k1.1 k2.1 && cell_eqb k1.2 k2.2.

Definition key_leb (k1 k2 : cell F * cell F) : bool :=
  if cell_ltb k1.1 k2.1 then true
  else if cell_ltb k2.1 k1.1 then false
  else negb (cell_ltb k2.2 k1.2).

Definition in_group (k : cell F * cell F) (r : Row) : bool :=
  match group_key r with
  | Some k' => key_eqb k k'
  | None => false
  end.

Definition groupby (df : DataFrame F) : list ((cell F * cell F) * DataFrame F) :=
  let keys := merge_sort (le_of key_leb) (uniq key_eqb (omap group_key (rows df))) in
  (λ k, (k, mkDF (columns df) (List.filter (in_group k) (rows df)))) <$> keys.

(** A row handed out as a Series has one type for all its values, the
    common type of the columns.  With a column of text it is [object] and
    every value stays what it is, an int64 too; a row of numbers with a
    float64 among them is float64, its whole numbers converted; a row of
    int64 only is int64. *)
Definition is_text (v : cell F) : bool :=
  match v with
  | CStr _ => true
  | _ => false
  end.

Definition is_float (v : cell F) : bool :=
  match v with
  | CNum _ => true
  | _ => false
  end.

Definition as_float64 (v : cell F) : cell F :=
  match v with
  | CInt z => CNum (fof_int z)
  | _ => v
  end.

Definition row_series (cols : list string) (r : Row) : Series F :=
  mkSeries cols
    (if existsb (λ c, is_text (cell_at r c)) cols then r
     else if existsb (λ c, is_float (cell_at r c)) cols then as_float64 <$> r
     else r).

(** [df.iloc[i]] and [row[c]] *)
Definition iloc (df : DataFrame F) (i : nat) : result (Series F) :=
  match rows df !! i with
  | Some r => Ok (row_series (columns df) r)
  | None => Raise IndexError
  end.

Definition item (p : Series F) (c : string) : result (cell F) :=
  if bool_decide (c ∈ index p) then Ok (cell_at (values p) c)
  else Raise (KeyError c).

(** [df.iterrows()] *)
Definition iterrows (df : DataFrame F) : list (Series F) :=
  row_series (columns df) <$> rows df.

(** [Series.min()] and [Series.max()] skip missing values and answer NaN
    when nothing is left; the script wraps them in [float].  Text in the
    column is a [TypeError]; the script takes them of coerced columns
    only. *)
Definition as_number (v : cell F) : result F :=
  match v with
  | CNum x => Ok x
  | CInt z => Ok (fof_int z)
  | CStr _ => Raise TypeError
  end.

Definition nan_min (l : list F) : F :=
  foldl (λ acc x, if fis_nan x then acc
                  else if fis_nan acc then x
                  else if fltb x acc then x else acc) fnan l.

Definition nan_max (l : list F) : F :=
  foldl (λ acc x, if fis_nan x then acc
                  else if fis_nan acc then x
                  else if fltb acc x then x else acc) fnan l.

Definition series_min (df : DataFrame F) (c : string) : result F :=
  s ← getitem df c; xs ← mapM as_number s; Ok (nan_min xs).

Definition series_max (df : DataFrame F) (c : string) : result F :=
  s ← getitem df c; xs ← mapM as_number s; Ok (nan_max xs).

(** *** Python and numpy arithmetic *)

(** [x / y] on Python floats raises on a zero divisor, whatever [x] is. *)
Definition py_truediv (x y : F) : result F :=
  if feqb y (fdec 0 0) then Raise ZeroDivisionError else Ok (fdiv x y).

(** [float(v)]; the message of the error, which quotes the text, is cut
    short. *)
Definition py_float (v : cell F) : result F :=
  match v with
  | CNum x => Ok x
  | CInt z => Ok (fof_int z)
  | CStr s =>
      match fparse s with
      | Some x => Ok x
      | None => Raise (ValueError "could not convert string to float")
      end
  end.

(** [int(v)] fails on NaN and on the infinities; the digits it prints are
    not modelled. *)
Definition py_int_check (v : cell F) : result unit :=
  match v with
  | CNum t =>
      if fis_nan t then Raise (ValueError "cannot convert float NaN to integer")
      else if fis_inf t then Raise (OverflowError "cannot convert float infinity to integer")
      else Ok tt
  | CInt _ => Ok tt
  | CStr s =>
      match fparse_int s with
      | Some _ => Ok tt
      | None => Raise (ValueError "invalid literal for int() with base 10")
      end
  end.

(** [v1 + v2] on two values of a row: int64 addition wraps around, any other
    pair of numbers is added in float64, and text ends in a [TypeError]
    (here, or at the division that follows). *)
Definition np_add (v1 v2 : cell F) : result (cell F) :=
  match v1, v2 with
  | CInt z1, CInt z2 => Ok (CInt (wrap64 (z1 + z2)))
  | _, _ =>
      x1 ← as_number v1;
      x2 ← as_number v2;
      Ok (CNum (fadd x1 x2))
  end.

Definition issubset (needed : list string) (df : DataFrame F) : bool :=
  forallb (λ c, bool_decide (c ∈ columns df)) needed.

(** *** [load_csv] (lines 21-26) *)

Definition load_csv (read_csv : string → result (DataFrame F)) (path : string)
    : result (DataFrame F) :=
  df ← read_csv path;
  if bool_decide ("Unnamed: 0" ∈ columns df) then drop df "Unnamed: 0" else Ok df.

(** *** [to_numeric] (lines 29-33) *)

Fixpoint to_numeric (df : DataFrame F) (cols : list string) : result (DataFrame F) :=
  match cols with
  | [] => Ok df
  | c :: cols' =>
      if bool_decide (c ∈ columns df) then
        s ← getitem df c;
        df' ← setitem df c (pd_to_numeric s);
        to_numeric df' cols'
      else to_numeric df cols'
  end.

(** *** [main] (lines 36-159), in the order of the script *)

Definition troops_path : string :=
  "Data_from_Minard_s_famous_graphic_map_of_Napoleon_s_march_on_Moscow_900_85.csv".
Definition temp_path : string :=
  "Data_from_Minard_s_famous_graphic_map_of_Napoleon_s_march_on_Moscow_899_95.csv".
Definition cities_path : string :=
  "Data_from_Minard_s_famous_graphic_map_of_Napoleon_s_march_on_Moscow_898_15.csv".

(** Lines 52-55. *)
Definition sort_troops (troops : DataFrame F) : result (DataFrame F) :=
  if issubset ["group"; "direction"; "X"] troops then
    sort_values troops ["group"; "direction"; "X"]
  else if bool_decide ("X" ∈ columns troops) then sort_values troops ["X"]
  else Ok troops.

(** Lines 57-60, and 91 and 108 without the index reset. *)
Definition sort_by_X (df : DataFrame F) : result (DataFrame F) :=
  if bool_decide ("X" ∈ columns df) then sort_values df ["X"] else Ok df.

(** Lines 63-72. *)
Definition needed_troops : list string := ["long"; "lat"; "survivors"].
Definition needed_temp : list string := ["long"; "temp"].
Definition needed_cities : list string := ["long"; "lat"; "city"].

Definition basic_checks (troops temp cities : DataFrame F) : result unit :=
  if negb (issubset needed_troops troops) then
    Raise (ValueError "Troops CSV must include columns: ['lat', 'long', 'survivors']")
  else if negb (issubset needed_temp temp) then
    Raise (ValueError "Temp CSV must include columns: ['long', 'temp']")
  else if negb (issubset needed_cities cities) then
    Raise (ValueError "Cities CSV must include columns: ['city', 'lat', 'long']")
  else Ok tt.

(** Lines 95 and 112: [float((p1["survivors"] + p2["survivors"]) / 2.0)].
    The sum is numpy's, on the two values as the rows hold them; the division
    by the float 2.0 is in float64. *)
Definition pair_survivors (p1 p2 : Series F) : result F :=
  v1 ← item p1 "survivors";
  v2 ← item p2 "survivors";
  s ← np_add v1 v2;
  x ← as_number s;
  Ok (fdiv x (fdec 2 0)).

(** Lines 98 and 113: [0.5 + 11.5 * np.sqrt(surv / max_surv)].  The division
    is Python's, on two Python floats. *)
Definition linewidth (surv max_surv : F) : result F :=
  q ← py_truediv surv max_surv;
  Ok (fadd (fdec 5 1) (fmul (fdec 115 1) (fsqrt q))).

(** Line 101: ["-" if str(direction).upper().startswith("A") else "--"].
    The text of a number begins with a digit, a sign, [i] or [n]. *)
Definition str_upper_startswith_A (direction : cell F) : bool :=
  match direction with
  | CStr s => startswith (upper (code_points s)) [65%N]
  | _ => false
  end.

Definition direction_linestyle (direction : cell F) : linestyle :=
  if str_upper_startswith_A direction then Solid else Dashed.

(** Lines 93-106 and 110-116: one segment between two consecutive rows. *)
Definition draw_segment (max_surv : F) (ls : linestyle) (gdf : DataFrame F) (i : nat)
    : drawing F unit :=
  p1 ← lift (iloc gdf i);
  p2 ← lift (iloc gdf (i + 1));
  surv ← lift (pair_survivors p1 p2);
  lw ← lift (linewidth surv max_surv);
  emit SetPropCycle;;
  x1 ← lift (item p1 "long");
  x2 ← lift (item p2 "long");
  y1 ← lift (item p1 "lat");
  y2 ← lift (item p2 "lat");
  emit (Plot [x1; x2] [y1; y2] lw ls None None).

(** Lines 92 and 109: [for i in range(len(gdf) - 1)]. *)
Definition draw_path (max_surv : F) (ls : linestyle) (gdf : DataFrame F)
    : drawing F unit :=
  for_each (seq 0 (length (rows gdf) - 1)) (draw_segment max_surv ls gdf).

(** Lines 88-116. *)
Definition draw_troops (max_surv : F) (troops : DataFrame F) : drawing F unit :=
  if issubset ["group"; "direction"] troops then
    for_each (groupby troops) (λ '((_, direction), gdf),
      gdf ← lift (sort_by_X gdf);
      draw_path max_surv (direction_linestyle direction) gdf)
  else
    troops_sorted ← lift (sort_by_X troops);
    draw_path max_surv Solid troops_sorted.

(** Lines 119-122. *)
Definition draw_cities (cities : DataFrame F) : drawing F unit :=
  emit SetPropCycle;;
  xs ← lift (getitem cities "long");
  ys ← lift (getitem cities "lat");
  emit (Scatter xs ys "Cities");;
  for_each (iterrows cities) (λ row,
    vx ← lift (item row "long");
    x ← lift (py_float vx);
    vy ← lift (item row "lat");
    y ← lift (py_float vy);
    name ← lift (item row "city");
    emit (Text (fadd x (fdec 8 2)) (fadd y (fdec 5 2)) (StrOf name))).

(** Line 129. *)
Definition y_span : F := fdec 14 1.

(** Line 131, for one element of the column, as a float64: numpy arithmetic
    throughout. *)
Definition temp_to_y (temp_min temp_max y_base y_span : F) (t : F) : F :=
  fadd y_base (fmul (fdiv (fsub t temp_min) (fsub temp_max temp_min)) y_span).

(** Line 139: the same formula on Python floats. *)
Definition label_y (temp_min temp_max y_base y_span : F) (t : F) : result F :=
  q ← py_truediv (fsub t temp_min) (fsub temp_max temp_min);
  Ok (fadd y_base (fmul q y_span)).

(** Lines 138-142.  The arguments of [ax.text] are evaluated in order:
    [float(row["long"])], [yt - 0.10], then the label with its
    [int(row["temp"])]. *)
Definition draw_temp_label (temp : DataFrame F) (temp_min temp_max y_base : F)
    (row : Series F) : drawing F unit :=
  vt ← lift (item row "temp");
  t ← lift (py_float vt);
  yt ← lift (label_y temp_min temp_max y_base y_span t);
  date_label ← lift (if bool_decide ("date" ∈ columns temp)
                     then Some <$> item row "date" else Ok None);
  vx ← lift (item row "long");
  x ← lift (py_float vx);
  vt' ← lift (item row "temp");
  lift (py_int_check vt');;
  emit (Text x (fsub yt (fdec 10 2)) (TempLabel vt' date_label)).

(** Lines 125-142. *)
Definition draw_temperature (temp : DataFrame F) (min_lat : F) : drawing F unit :=
  temp_min ← lift (series_min temp "temp");
  temp_max ← lift (series_max temp "temp");
  let y_base := fsub min_lat (fdec 23 1) in
  s ← lift (getitem temp "temp");
  ts ← lift (mapM as_number s);
  let y_temp := temp_to_y temp_min temp_max y_base y_span <$> ts in
  emit SetPropCycle;;
  xs ← lift (getitem temp "long");
  emit (Plot xs (CNum <$> y_temp) (fdec 15 1) Dotted (Some "o")
             (Some "Temperature (dotted)"));;
  for_each (iterrows temp) (draw_temp_label temp temp_min temp_max y_base).

(** Lines 145-159. *)
Definition out_file : string := "minard_combined_visualization_final.png".

(** [ax.set_xlim] and [ax.set_ylim] refuse a limit that is NaN or infinite,
    the lower one first, before they change the axis. *)
Definition check_limit (v : F) : result unit :=
  if fis_nan v || fis_inf v then Raise (ValueError "Axis limits cannot be NaN or Inf")
  else Ok tt.

Definition set_xlim (lo hi : F) : drawing F unit :=
  lift (check_limit lo);;
  lift (check_limit hi);;
  emit (SetXLim lo hi).

Definition set_ylim (lo hi : F) : drawing F unit :=
  lift (check_limit lo);;
  lift (check_limit hi);;
  emit (SetYLim lo hi).

Definition final_formatting (troops : DataFrame F) (min_lat max_lat : F)
    : drawing F unit :=
  emit SetTitle;;
  emit (SetXLabel "Longitude");;
  emit (SetYLabel "Latitude (temperature curve embedded below route)");;
  emit Legend;;
  lo ← lift (series_min troops "long");
  hi ← lift (series_max troops "long");
  set_xlim (fsub lo (fdec 5 1)) (fadd hi (fdec 5 1));;
  set_ylim (fsub (fsub min_lat (fdec 23 1)) (fdec 5 1)) (fadd max_lat (fdec 8 1));;
  emit Grid;;
  emit TightLayout;;
  emit (SaveFig out_file);;
  emit (PrintOut "Saved: minard_combined_visualization_final.png").

(** Lines 42-60: load, coerce and sort the three tables. *)
Definition load_tables (read_csv : string → result (DataFrame F))
    : result (DataFrame F * DataFrame F * DataFrame F) :=
  troops ← load_csv read_csv troops_path;
  temp ← load_csv read_csv temp_path;
  cities ← load_csv read_csv cities_path;
  troops ← to_numeric troops ["X"; "long"; "lat"; "survivors"; "group"];
  temp ← to_numeric temp ["X"; "long"; "temp"; "days"];
  cities ← to_numeric cities ["X"; "long"; "lat"];
  troops ← sort_troops troops;
  temp ← sort_by_X temp;
  cities ← sort_by_X cities;
  Ok (troops, temp, cities).

Definition main (read_csv : string → result (DataFrame F)) : drawing F unit :=
  '(troops, temp, cities) ← lift (load_tables read_csv);
  lift (basic_checks troops temp cities);;
  max_surv ← lift (series_max troops "survivors");
  min_lat ← lift (series_min troops "lat");
  max_lat ← lift (series_max troops "lat");
  emit Subplots;;
  emit SetPropCycle;;
  emit (Plot [] [] (fdec 3 0) Solid None (Some "Advance (solid)"));;
  emit SetPropCycle;;
  emit (Plot [] [] (fdec 3 0) Dashed None (Some "Retreat (dashed)"));;
  draw_troops max_surv troops;;
  draw_cities cities;;
  draw_temperature temp min_lat;;
  final_formatting troops min_lat max_lat.

End Program.

(** * What the program is compared with *)

Section Reference.
Context {F : Type} {arith : Float64 F}.

(** The column [c] of a list of rows. *)
Definition column_of (c : string) (rs : list (gmap string (cell F))) : list (cell F) :=
  (λ r, cell_at r c) <$> rs.

(** A column of whole numbers: every entry is an int64 or text that reads as
    one. *)
Definition whole (s : list (cell F)) : bool :=
  forallb (λ v, bool_decide (is_Some (as_int64 v))) s.

(** What [pd.to_numeric] makes of the entry [v] of a column [s]. *)
Definition coerce_in (s : list (cell F)) (v : cell F) : cell F :=
  if whole s then
    match as_int64 v with
    | Some z => CInt z
    | None => v
    end
  else coerce_cell v.

(** What [to_numeric] does to the row [r] of the rows [rs], for the columns
    it finds. *)
Definition coerce_row (rs : list (gmap string (cell F))) (present : list string)
    (r : gmap string (cell F)) : gmap string (cell F) :=
  foldr (λ c acc, <[c := coerce_in (column_of c rs) (cell_at r c)]> acc) r present.

Definition present_in (df : DataFrame F) (cols : list string) : list string :=
  List.filter (λ c, bool_decide (c ∈ columns df)) cols.

(** The inverse of the temperature mapping, as the specification words it:
    [(y - y_base) / y_span * (temp_max - temp_min) + temp_min].  The script
    has no such function. *)
Definition y_to_temp (temp_min temp_max y_base y_span : F) (y : F) : F :=
  fadd (fmul (fdiv (fsub y y_base) y_span) (fsub temp_max temp_min)) temp_min.

(** The rows of a table in drawing order: by [X] when there is such a column,
    as they stand otherwise. *)
Definition path_of (df : DataFrame F) : list (gmap string (cell F)) :=
  if bool_decide ("X" ∈ columns df) then sort_rows ["X"] (rows df) else rows df.

(** Row [i] of a path as [iloc] hands it out. *)
Definition row_at (path : DataFrame F) (i : nat) : gmap string (cell F) :=
  values (row_series (columns path) (default ∅ (rows path !! i))).

(** What one segment between rows [i] and [i+1] of a path adds to the
    figure. *)
Definition segment_ops (ls : linestyle) (path : DataFrame F) (i : nat) (lw : F)
    : list (draw_op F) :=
  [SetPropCycle;
   Plot [cell_at (row_at path i) "long"; cell_at (row_at path (i + 1)) "long"]
        [cell_at (row_at path i) "lat"; cell_at (row_at path (i + 1)) "lat"]
        lw ls None None].

(** Text whose first character is [A], [a] or [ẚ] (U+1E9A). *)
Definition begins_with_A (direction : cell F) : bool :=
  match direction with
  | CStr s =>
      match code_points s with
      | c :: _ => bool_decide (c ∈ [65; 97; 7834]%N)
      | [] => false
      end
  | _ => false
  end.

(** The sum of two survivor counts as line 95 takes it: with wrap-around for
    two int64, in float64 otherwise. *)
Definition pair_sum (v1 v2 : cell F) : F :=
  match v1, v2 with
  | CInt z1, CInt z2 => fof_int (wrap64 (z1 + z2))
  | _, _ => fadd (float_of_cell v1) (float_of_cell v2)
  end.

(** A column that holds numbers only. *)
Definition numeric_col (df : DataFrame F) (c : string) : Prop :=
  ∀ r, r ∈ rows df → ∃ x, as_number (cell_at r c) = Ok x.

(** Neither NaN nor infinite. *)
Definition finite (x : F) : Prop := fis_nan x = false ∧ fis_inf x = false.

End Reference.

Section ReferenceRoute.
Context {F : Type} {arith : Float64 F} {unicode : CaseMapping}.

(** The paths the route consists of, each with its line style: one per
    (group, direction) when the table has both columns, a single solid one
    otherwise. *)
Definition route_plan (troops : DataFrame F) : list (linestyle * DataFrame F) :=
  if issubset ["group"; "direction"] troops then
    (λ '((_, direction), gdf),
       (direction_linestyle direction, mkDF (columns gdf) (path_of gdf)))
      <$> groupby troops
  else [(Solid, mkDF (columns troops) (path_of troops))].

End ReferenceRoute.

(** A row with group [g] and direction [d]. *)
Definition has_key (g d : cell real64) (r : gmap string (cell real64)) : Prop :=
  cell_at r "group" = g ∧ cell_at r "direction" = d.

Global Instance has_key_dec g d r : Decision (has_key g d r).
Proof. unfold has_key. apply _. Defined.

(** The order of two rows that follow each other on a path: the sequence key
    [X] does not decrease, and rows without one come last. *)
Definition x_le (r1 r2 : gmap string (cell real64)) : Prop :=
  match float_of_cell (cell_at r1 "X"), float_of_cell (cell_at r2 "X") with
  | Fin x1, Fin x2 => (x1 <= x2)%R
  | Fin _, NaN => True
  | NaN, Fin _ => False
  | NaN, NaN => True
  end.

(** The linewidth of line 98 as a real number, for an average [surv]:
    [0.5 + 11.5 * sqrt(surv / max_surv)], NaN below zero as [np.sqrt] has it. *)
Definition linewidth_value (surv max_surv : R) : real64 :=
  if Rlt_dec surv 0 then NaN
  else Fin (1 / 2 + 23 / 2 * R_sqrt.sqrt (surv / max_surv))%R.

(** * What the rest of the script is compared with *)

(** [m] does not write the figure. *)
Definition no_save {F A} (m : drawing F A) : Prop := SaveFig out_file ∉ m.1.

(** [m] writes the figure only when it ends well, and then once, as its last
    operation but for the closing message. *)
Definition saves_last {F} (m : drawing F unit) : Prop :=
  match m.2 with
  | Ok _ => ∃ t, m.1 = t ++ [SaveFig out_file;
                             PrintOut "Saved: minard_combined_visualization_final.png"]
                 ∧ SaveFig out_file ∉ t
  | Raise _ => SaveFig out_file ∉ m.1
  end.

(** [m] raises nothing but what [P] allows. *)
Definition only_raises {F A} (P : exn → Prop) (m : drawing F A) : Prop :=
  ∀ e, m.2 = Raise e → P e.

(** What drawing can raise: a division by zero, [int] of a missing or of an
    infinite temperature, and an axis limit that is not finite. *)
Definition arith_exn (e : exn) : Prop :=
  e = ZeroDivisionError
  ∨ e = ValueError "cannot convert float NaN to integer"
  ∨ e = OverflowError "cannot convert float infinity to integer"
  ∨ e = ValueError "Axis limits cannot be NaN or Inf".

(** What a run can raise once the three files are read. *)
Definition main_exn (e : exn) : Prop :=
  e = ValueError "Troops CSV must include columns: ['lat', 'long', 'survivors']"
  ∨ e = ValueError "Temp CSV must include columns: ['long', 'temp']"
  ∨ e = ValueError "Cities CSV must include columns: ['city', 'lat', 'long']"
  ∨ arith_exn e.

Section ReferenceLabels.
Context {F : Type} {arith : Float64 F}.

(** A row of a table as [iterrows] hands it out. *)
Definition handed (df : DataFrame F) (r : gmap string (cell F)) : gmap string (cell F) :=
  values (row_series (columns df) r).

(** The float a row holds in a column ([NaN] where it holds text). *)
Definition number_at (r : gmap string (cell F)) (c : string) : F :=
  float_of_cell (cell_at r c).

(** The temperature of a row as the label takes it. *)
Definition reading (temp : DataFrame F) (r : gmap string (cell F)) : cell F :=
  cell_at (handed temp r) "temp".

(** A reading that [int] accepts: no float that is NaN or infinite. *)
Definition finite_reading (temp : DataFrame F) (r : gmap string (cell F)) : Prop :=
  ∀ t, reading temp r = CNum t → finite t.

(** The one failure of the route: a division by a zero maximum. *)
Definition zero_maximum (max_surv : F) (e : exn) : Prop :=
  e = ZeroDivisionError ∧ feqb max_surv (fdec 0 0) = true.

(** The failures of the temperature labels: a division by a zero range, and
    [int] of a reading that is missing or infinite. *)
Definition label_failure (temp : DataFrame F) (temp_min temp_max : F) (e : exn) : Prop :=
  (e = ZeroDivisionError ∧ feqb (fsub temp_max temp_min) (fdec 0 0) = true)
  ∨ (e = ValueError "cannot convert float NaN to integer"
     ∧ ∃ r t, r ∈ rows temp ∧ reading temp r = CNum t ∧ fis_nan t = true)
  ∨ (e = OverflowError "cannot convert float infinity to integer"
     ∧ ∃ r t, r ∈ rows temp ∧ reading temp r = CNum t ∧ fis_inf t = true).

(** The limits of the two axes, lines 152 and 153. *)
Definition x_limits (troops : DataFrame F) : result (F * F) :=
  lo ← series_min troops "long";
  hi ← series_max troops "long";
  Ok (fsub lo (fdec 5 1), fadd hi (fdec 5 1)).

Definition y_limits (min_lat max_lat : F) : F * F :=
  (fsub (fsub min_lat (fdec 23 1)) (fdec 5 1), fadd max_lat (fdec 8 1)).

(** The failure of the axes: a limit that is NaN or infinite. *)
Definition limit_failure (troops : DataFrame F) (min_lat max_lat : F) (e : exn) : Prop :=
  e = ValueError "Axis limits cannot be NaN or Inf"
  ∧ ∃ xlo xhi, x_limits troops = Ok (xlo, xhi)
      ∧ ¬ (finite xlo ∧ finite xhi
           ∧ finite (y_limits min_lat max_lat).1 ∧ finite (y_limits min_lat max_lat).2).

(** Why a run fails, once the files are read: a column check, a zero
    maximum of the survivors, a temperature label, or an axis limit. *)
Definition run_failure (troops temp cities : DataFrame F) (e : exn) : Prop :=
  basic_checks troops temp cities = Raise e
  ∨ (∃ max_surv, series_max troops "survivors" = Ok max_surv ∧ zero_maximum max_surv e)
  ∨ (∃ temp_min temp_max,
       series_min temp "temp" = Ok temp_min
       ∧ series_max temp "temp" = Ok temp_max
       ∧ label_failure temp temp_min temp_max e)
  ∨ (∃ min_lat max_lat,
       series_min troops "lat" = Ok min_lat
       ∧ series_max troops "lat" = Ok max_lat
       ∧ limit_failure troops min_lat max_lat e).

(** The label of a city: its name, 0.08 to the right of and 0.05 above its
    marker. *)
Definition city_label (cities : DataFrame F) (r : gmap string (cell F)) : draw_op F :=
  Text (fadd (number_at r "long") (fdec 8 2)) (fadd (number_at r "lat") (fdec 5 2))
       (StrOf (cell_at (handed cities r) "city")).

(** The height at which the curve shows the reading of a row. *)
Definition temp_point (temp_min temp_max y_base : F) (r : gmap string (cell F)) : F :=
  temp_to_y temp_min temp_max y_base y_span (number_at r "temp").

(** The label of a reading: 0.10 under its point of the curve. *)
Definition temp_label (temp : DataFrame F) (temp_min temp_max y_base : F)
    (r : gmap string (cell F)) : draw_op F :=
  Text (number_at r "long")
       (fsub (temp_point temp_min temp_max y_base r) (fdec 10 2))
       (TempLabel (reading temp r)
          (if bool_decide ("date" ∈ columns temp)
           then Some (cell_at (handed temp r) "date") else None)).

(** The temperature curve. *)
Definition temp_curve (temp : DataFrame F) (temp_min temp_max y_base : F) : draw_op F :=
  Plot ((λ r, cell_at r "long") <$> rows temp)
       ((λ r, CNum (temp_point temp_min temp_max y_base r)) <$> rows temp)
       (fdec 15 1) Dotted (Some "o") (Some "Temperature (dotted)").

End ReferenceLabels.

(** * Sample tables *)

Definition troop_row {F} (x long lat survivors : F) (direction : string) (group : F)
    : gmap string (cell F) :=
  list_to_map [("X", CNum x); ("long", CNum long); ("lat", CNum lat);
               ("survivors", CNum survivors); ("direction", CStr direction);
               ("group", CNum group)].

Definition temp_row {F} (long temp : F) (date : string) : gmap string (cell F) :=
  list_to_map [("long", CNum long); ("temp", CNum temp); ("date", CStr date)].

Definition city_row {F} (long lat : F) (city : string) : gmap string (cell F) :=
  list_to_map [("long", CNum long); ("lat", CNum lat); ("city", CStr city)].

Definition troops_columns : list string :=
  ["X"; "long"; "lat"; "survivors"; "direction"; "group"].

(** The three files of a run. *)
Definition files {F} (troops temp cities : DataFrame F) (path : string)
    : result (DataFrame F) :=
  if String.eqb path troops_path then Ok troops
  else if String.eqb path temp_path then Ok temp
  else if String.eqb path cities_path then Ok cities
  else Raise (FileNotFoundError path).

(** One advance from (30, 55) with 400000 men to (31, 54) with 300000. *)
Definition sample_troops : DataFrame float :=
  mkDF troops_columns
    [troop_row 1 30 55 400000 "A" 1; troop_row 2 31 54 300000 "A" 1]%float.

Definition sample_temp : DataFrame float :=
  mkDF ["long"; "temp"; "date"]
    [temp_row 30 0 "Oct 18"; temp_row 31 (-30) "Dec 6"]%float.

Definition sample_cities : DataFrame float :=
  mkDF ["long"; "lat"; "city"] [city_row 30 55 "Moscou"]%float.

(** The same troops without the [survivors] column. *)
Definition troops_without_survivors : DataFrame float :=
  mkDF ["X"; "long"; "lat"; "direction"; "group"]
    (delete "survivors" <$> rows sample_troops).

(** Nobody left: every survivor count is zero. *)
Definition troops_all_zero : DataFrame float :=
  mkDF troops_columns
    [troop_row 1 30 55 0 "A" 1; troop_row 2 31 54 0 "A" 1]%float.

(** A direction written in lower case. *)
Definition troops_lower_case : DataFrame float :=
  mkDF troops_columns
    [troop_row 1 30 55 400000 "a" 1; troop_row 2 31 54 400000 "a" 1]%float.

(** A direction that begins with [ẚ] (U+1E9A). *)
Definition troops_half_ring : DataFrame float :=
  mkDF troops_columns
    [troop_row 1 30 55 400000 "ẚ" 1; troop_row 2 31 54 400000 "ẚ" 1]%float.

(** The same temperature at every reading. *)
Definition temp_constant : DataFrame float :=
  mkDF ["long"; "temp"; "date"]
    [temp_row 30 0 "Oct 18"; temp_row 31 0 "Oct 24"]%float.

(** The same samples on reals. *)
Definition real_troops : DataFrame real64 :=
  mkDF troops_columns
    [troop_row (Fin 1) (Fin 30) (Fin 55) (Fin 400000) "A" (Fin 1);
     troop_row (Fin 2) (Fin 31) (Fin 54) (Fin 300000) "A" (Fin 1)].

Definition real_temp : DataFrame real64 :=
  mkDF ["long"; "temp"; "date"]
    [temp_row (Fin 30) (Fin 0) "Oct 18"; temp_row (Fin 31) (Fin (-30)) "Dec 6"].

Definition real_temp_constant : DataFrame real64 :=
  mkDF ["long"; "temp"; "date"]
    [temp_row (Fin 30) (Fin 0) "Oct 18"; temp_row (Fin 31) (Fin 0) "Oct 24"].

(** A column read as text, with one entry that is no number. *)
Definition survivors_as_text : DataFrame float :=
  mkDF ["survivors"; "direction"]
    [list_to_map [("survivors", CStr "400000"); ("direction", CStr "A")];
     list_to_map [("survivors", CStr "many"); ("direction", CStr "R")]].

(** A reading is missing. *)
Definition temp_with_gap : DataFrame float :=
  mkDF ["long"; "temp"; "date"]
    [temp_row 30 0 "Oct 18"; temp_row 31 PrimFloat.nan "Nov 9";
     temp_row 32 (-30) "Dec 6"]%float.

(** A survivor count is missing. *)
Definition real_troops_gap : DataFrame real64 :=
  mkDF troops_columns
    [troop_row (Fin 1) (Fin 30) (Fin 55) NaN "A" (Fin 1);
     troop_row (Fin 2) (Fin 31) (Fin 54) (Fin 300000) "A" (Fin 1)].





(** The same counts in a table without text: its rows are float64. *)
Definition troops_huge_numbers : DataFrame float :=
  mkDF ["long"; "lat"; "survivors"]
    [list_to_map [("long", CNum 30); ("lat", CNum 55);
                  ("survivors", CInt 5000000000000000000)];
     list_to_map [("long", CNum 31); ("lat", CNum 54);
                  ("survivors", CInt 5000000000000000000)]]%float.

(** A reading is infinite. *)
Definition temp_with_infinity : DataFrame float :=
  mkDF ["long"; "temp"; "date"]
    [temp_row 30 0 "Oct 18"; temp_row 31 PrimFloat.infinity "Nov 9";
     temp_row 32 (-30) "Dec 6"]%float.

(** A troops file with its header and no row. *)
Definition troops_header_only : DataFrame float := mkDF troops_columns [].

(** * Properties *)

(** ** The normalizer, [to_numeric] *)

(** One step of a computation whose head is known. *)
Ltac run_result := cbn [mbind result_bind mret result_ret fmap result_fmap].
Ltac run_drawing := cbn [mbind drawing_bind mret drawing_ret lift emit app].

Section Normalizer.
Context {F : Type} {arith : Float64 F}.

Lemma if_bool_decide_ext {A} (P Q : Prop) `{Decision P, Decision Q} (a b : A) :
  (P ↔ Q) → (if bool_decide P then a else b) = (if bool_decide Q then a else b).
Proof. intros HPQ. by rewrite (bool_decide_ext P Q HPQ). Qed.

Lemma cell_at_insert_eq (r : gmap string (cell F)) c v : cell_at (<[c:=v]> r) c = v.
Proof. unfold cell_at. by rewrite lookup_insert_eq. Qed.

Lemma cell_at_insert_ne (r : gmap string (cell F)) c c' v :
  c ≠ c' → cell_at (<[c:=v]> r) c' = cell_at r c'.
Proof. intros. unfold cell_at. by rewrite lookup_insert_ne. Qed.

Lemma coerce_cell_idemp (v : cell F) : coerce_cell (coerce_cell v) = coerce_cell v.
Proof. by destruct v. Qed.

Lemma whole_spec (s : list (cell F)) :
  whole s = true ↔ ∀ v, v ∈ s → ∃ z, as_int64 v = Some z.
Proof.
  unfold whole. rewrite forallb_forall. split.
  - intros H v Hv. apply list_elem_of_In, H in Hv.
    by apply bool_decide_eq_true_1 in Hv as [z Hz]; exists z.
  - intros H v Hv. apply bool_decide_eq_true_2. apply list_elem_of_In, H in Hv as [z ->].
    by eexists.
Qed.

Lemma mapM_as_int64 (s : list (cell F)) :
  match mapM as_int64 s with
  | Some zs =>
      whole s = true
      ∧ CInt <$> zs
        = (λ v, match as_int64 v with Some z => CInt z | None => v end) <$> s
  | None => whole s = false
  end.
Proof.
  induction s as [|v s IH]; [done|]. cbn [mapM whole forallb fmap list_fmap].
  destruct (as_int64 v) as [z|] eqn:Ev; cbn [mbind option_bind]; [|done].
  fold (whole s). rewrite bool_decide_eq_true_2 by by eexists.
  destruct (mapM as_int64 s) as [zs|]; cbn [mbind option_bind mret option_ret andb].
  - destruct IH as [-> IH]. cbn [fmap list_fmap]. by rewrite IH.
  - done.
Qed.

(** [pd.to_numeric] entry by entry. *)
Lemma pd_to_numeric_coerce_in (s : list (cell F)) :
  pd_to_numeric s = coerce_in s <$> s.
Proof.
  unfold pd_to_numeric, coerce_in. pose proof (mapM_as_int64 s) as H.
  destruct (mapM as_int64 s) as [zs|].
  - destruct H as [-> ->]. done.
  - by rewrite H.
Qed.

Lemma coerce_in_number (s : list (cell F)) (v : cell F) :
  v ∈ s → ∃ x, as_number (coerce_in s v) = Ok x.
Proof.
  intros Hv. unfold coerce_in. destruct (whole s) eqn:Hw.
  - destruct (proj1 (whole_spec s) Hw v Hv) as [z ->]. by eexists.
  - destruct v; by eexists.
Qed.

Lemma whole_coerced (s : list (cell F)) :
  whole s = true → whole (coerce_in s <$> s) = true.
Proof.
  intros Hw. apply whole_spec. intros v' (v & -> & Hv)%list_elem_of_fmap.
  unfold coerce_in. rewrite Hw.
  destruct (proj1 (whole_spec s) Hw v Hv) as [z ->]. by exists z.
Qed.

(** Coercing a coerced column changes nothing. *)
Lemma coerce_in_twice (s : list (cell F)) (v : cell F) :
  v ∈ s → coerce_in (coerce_in s <$> s) (coerce_in s v) = coerce_in s v.
Proof.
  intros Hv. unfold coerce_in at 1.
  destruct (whole (coerce_in s <$> s)) eqn:Hw2.
  - destruct (proj1 (whole_spec _) Hw2 (coerce_in s v)) as [z Hz].
    { apply list_elem_of_fmap. by exists v. }
    rewrite Hz. destruct (coerce_in_number s v Hv) as [x Hx].
    destruct (coerce_in s v); cbn in *; congruence.
  - unfold coerce_in. destruct (whole s) eqn:Hw.
    + by rewrite whole_coerced in Hw2.
    + apply coerce_cell_idemp.
Qed.

Lemma coerce_row_lookup (rs : list (gmap string (cell F))) (present : list string)
    (r : gmap string (cell F)) (c : string) :
  coerce_row rs present r !! c
  = if bool_decide (c ∈ present)
    then Some (coerce_in (column_of c rs) (cell_at r c)) else r !! c.
Proof.
  induction present as [|c' l IH]; [done|]. cbn [coerce_row foldr].
  fold (coerce_row rs l r). destruct (decide (c' = c)) as [->|Hne].
  - rewrite lookup_insert_eq, bool_decide_eq_true_2 by by left. done.
  - rewrite lookup_insert_ne, IH by done. apply if_bool_decide_ext.
    rewrite elem_of_cons. naive_solver.
Qed.

Lemma cell_at_coerce_row (rs : list (gmap string (cell F))) (present : list string)
    (r : gmap string (cell F)) (c : string) :
  cell_at (coerce_row rs present r) c
  = if bool_decide (c ∈ present)
    then coerce_in (column_of c rs) (cell_at r c) else cell_at r c.
Proof. unfold cell_at at 1. rewrite coerce_row_lookup. by case_bool_decide. Qed.

Lemma setitem_coerced (df : DataFrame F) c :
  c ∈ columns df →
  (s ← getitem df c; setitem df c (pd_to_numeric s))
  = Ok (mkDF (columns df)
          ((λ r, <[c := coerce_in (column_of c (rows df)) (cell_at r c)]> r) <$> rows df)).
Proof.
  intros Hc. unfold getitem, setitem.
  rewrite !bool_decide_eq_true_2 by done. run_result.
  rewrite pd_to_numeric_coerce_in.
  rewrite bool_decide_eq_true_2 by (by rewrite !length_fmap).
  do 2 f_equal. unfold column_of.
  rewrite zip_with_fmap_r, zip_with_fmap_r, zip_with_diag. done.
Qed.

Lemma column_of_insert (rs : list (gmap string (cell F))) (c c' : string)
    (f : cell F → cell F) :
  column_of c' ((λ r, <[c := f (cell_at r c)]> r) <$> rs)
  = if decide (c = c') then f <$> column_of c rs else column_of c' rs.
Proof.
  unfold column_of. rewrite <- !list_fmap_compose.
  destruct (decide (c = c')) as [<-|Hne].
  - apply list_fmap_ext. intros i r _. cbn. by rewrite cell_at_insert_eq.
  - apply list_fmap_ext. intros i r _. cbn. by apply cell_at_insert_ne.
Qed.

Lemma to_numeric_spec (cols : list string) (df : DataFrame F) :
  to_numeric df cols
  = Ok (mkDF (columns df) (coerce_row (rows df) (present_in df cols) <$> rows df)).
Proof.
  revert df. induction cols as [|c cols IH]; intros df; simpl.
  - destruct df as [cs rs]. simpl. f_equal. f_equal. by rewrite list_fmap_id.
  - unfold present_in. simpl. case_bool_decide as Hc; [|by rewrite IH].
    pose proof (setitem_coerced df c Hc) as Hs.
    destruct (getitem df c) as [s|e]; simpl in *; [|done].
    rewrite Hs. simpl. rewrite IH. cbn [columns rows]. do 2 f_equal.
    rewrite <- list_fmap_compose. apply list_fmap_ext. intros i r Hr. cbn [compose].
    apply map_eq. intros c'. rewrite !coerce_row_lookup.
    fold (present_in df cols). rewrite column_of_insert.
    assert (Hv : cell_at r c ∈ column_of c (rows df)).
    { apply list_elem_of_fmap. exists r. split; [done|]. by eapply list_elem_of_lookup_2. }
    destruct (decide (c = c')) as [<-|Hne].
    + rewrite cell_at_insert_eq, lookup_insert_eq.
      rewrite (bool_decide_eq_true_2 (c ∈ c :: _)) by by left.
      case_bool_decide; [|done]. f_equal. by apply coerce_in_twice.
    + rewrite cell_at_insert_ne, lookup_insert_ne by done.
      apply if_bool_decide_ext. rewrite elem_of_cons. naive_solver.
Qed.

Lemma elem_of_present_in (df : DataFrame F) cols c :
  c ∈ present_in df cols ↔ c ∈ cols ∧ c ∈ columns df.
Proof.
  unfold present_in.
  rewrite !list_elem_of_In, List.filter_In, bool_decide_eq_true, list_elem_of_In.
  done.
Qed.

Lemma to_numeric_columns (df df' : DataFrame F) cols :
  to_numeric df cols = Ok df' → columns df' = columns df.
Proof. rewrite to_numeric_spec. by intros [= <-]. Qed.

(** C8.  [to_numeric] never raises, whatever the table and the column list.
    In every listed column that the table has, each entry is a number
    afterwards: a float stays as it is, text that reads as a number becomes
    that number, text that does not becomes NaN, and a whole number stays an
    int64 when the column holds whole numbers only and becomes a float
    otherwise.  A listed column that the table lacks is skipped: no column is
    added and the rows keep what they held under that name. *)
Theorem to_numeric_never_raises (df : DataFrame F) (cols : list string) :
  ∃ df', to_numeric df cols = Ok df' ∧
    columns df' = columns df ∧
    length (rows df') = length (rows df) ∧
    ∀ i r, rows df !! i = Some r →
      ∃ r', rows df' !! i = Some r' ∧
        ∀ c, c ∈ cols →
          (c ∈ columns df →
             (∃ x, as_number (cell_at r' c) = Ok x) ∧
             (∀ x, cell_at r c = CNum x → cell_at r' c = CNum x) ∧
             (∀ s x, cell_at r c = CStr s → fparse_int s = None → fparse s = Some x →
                cell_at r' c = CNum x) ∧
             (∀ s, cell_at r c = CStr s → fparse_int s = None → fparse s = None →
                cell_at r' c = CNum fnan) ∧
             (∀ z, cell_at r c = CInt z →
                cell_at r' c
                = if whole (column_of c (rows df)) then CInt z else CNum (fof_int z)) ∧
             (∀ s z, cell_at r c = CStr s → fparse_int s = Some z →
                cell_at r' c
                = if whole (column_of c (rows df)) then CInt z
                  else CNum (default fnan (fparse s)))) ∧
          (c ∉ columns df → r' !! c = r !! c).
Proof.
  eexists. split; [apply to_numeric_spec|]. simpl.
  split; [done|]. split; [by rewrite length_fmap|].
  intros i r Hr. eexists. split; [by rewrite list_lookup_fmap, Hr|].
  intros c Hc. split.
  - intros Hin.
    assert (Hp : c ∈ present_in df cols) by by apply elem_of_present_in.
    assert (Hv : cell_at r c ∈ column_of c (rows df)).
    { apply list_elem_of_fmap. exists r. split; [done|]. by eapply list_elem_of_lookup_2. }
    rewrite cell_at_coerce_row, bool_decide_eq_true_2 by done.
    split; [by apply coerce_in_number|].
    assert (Hfloat : ∀ v, v ∈ column_of c (rows df) → as_int64 v = None →
              whole (column_of c (rows df)) = false).
    { intros v Hin' Hnone. destruct (whole _) eqn:Hw; [|done].
      destruct (proj1 (whole_spec _) Hw v Hin') as [z Hz]. congruence. }
    unfold coerce_in. repeat split.
    + intros x Hx. rewrite Hx in *. by rewrite (Hfloat _ Hv).
    + intros s x Hs Hi Hf. rewrite Hs in *. rewrite (Hfloat _ Hv) by done.
      cbn. by rewrite Hf.
    + intros s Hs Hi Hf. rewrite Hs in *. rewrite (Hfloat _ Hv) by done.
      cbn. by rewrite Hf.
    + intros z ->. by destruct (whole _).
    + intros s z -> Hz. destruct (whole _); cbn; by rewrite ?Hz.
  - intros Hnin. rewrite coerce_row_lookup, bool_decide_eq_false_2; [done|].
    rewrite elem_of_present_in. tauto.
Qed.

(** C10.  The table [to_numeric] returns has the columns of the input and as
    many rows, and the row at each position agrees with the input row at that
    position in every column that is not listed (and in every column the table
    lacks): only listed columns that are present can change. *)
Theorem to_numeric_frame (df : DataFrame F) (cols : list string) :
  ∃ df', to_numeric df cols = Ok df' ∧
    columns df' = columns df ∧
    length (rows df') = length (rows df) ∧
    ∀ i r r', rows df !! i = Some r → rows df' !! i = Some r' →
      ∀ c, c ∉ cols ∨ c ∉ columns df → r' !! c = r !! c.
Proof.
  eexists. split; [apply to_numeric_spec|]. simpl.
  split; [done|]. split; [by rewrite length_fmap|].
  intros i r r' Hr. rewrite list_lookup_fmap, Hr. intros [= <-] c Hc.
  rewrite coerce_row_lookup, bool_decide_eq_false_2; [done|].
  rewrite elem_of_present_in. tauto.
Qed.

End Normalizer.

(** ** Loading, sorting and the column checks *)

Section Validator.
Context {F : Type} {arith : Float64 F} {unicode : CaseMapping}.

Lemma issubset_spec (needed : list string) (df : DataFrame F) :
  issubset needed df = true ↔ ∀ c, c ∈ needed → c ∈ columns df.
Proof.
  unfold issubset. rewrite forallb_forall. split.
  - intros H c Hc. apply list_elem_of_In in Hc. by apply (bool_decide_eq_true_1 _), H.
  - intros H c Hc. apply bool_decide_eq_true_2, H. by apply list_elem_of_In.
Qed.

Lemma issubset_missing (needed : list string) (df : DataFrame F) c :
  c ∈ needed → c ∉ columns df → issubset needed df = false.
Proof.
  intros Hc Hn. destruct (issubset needed df) eqn:E; [|done].
  exfalso. apply Hn. by eapply issubset_spec.
Qed.

Lemma sort_values_ok (df : DataFrame F) (by_ : list string) :
  (∀ c, c ∈ by_ → c ∈ columns df) →
  sort_values df by_ = Ok (mkDF (columns df) (sort_rows by_ (rows df))).
Proof.
  intros H. unfold sort_values.
  destruct (List.find _ by_) as [c|] eqn:E; [|done].
  apply List.find_some in E as [Hin Hc].
  apply list_elem_of_In, H in Hin.
  by rewrite bool_decide_eq_true_2 in Hc.
Qed.

Lemma sort_by_X_ok (df : DataFrame F) :
  ∃ rs, sort_by_X df = Ok (mkDF (columns df) rs) ∧ rs ≡ₚ rows df.
Proof.
  unfold sort_by_X. case_bool_decide as HX.
  - rewrite sort_values_ok.
    + eexists. split; [done|]. apply merge_sort_Permutation.
    + intros c ->%list_elem_of_singleton. done.
  - destruct df. by eexists.
Qed.

Lemma sort_troops_ok (df : DataFrame F) :
  ∃ rs, sort_troops df = Ok (mkDF (columns df) rs) ∧ rs ≡ₚ rows df.
Proof.
  unfold sort_troops. destruct (issubset _ df) eqn:E.
  - rewrite sort_values_ok by by apply issubset_spec.
    eexists. split; [done|]. apply merge_sort_Permutation.
  - case_bool_decide as HX.
    + rewrite sort_values_ok.
      * eexists. split; [done|]. apply merge_sort_Permutation.
      * intros c ->%list_elem_of_singleton. done.
    + destruct df. by eexists.
Qed.

Lemma load_csv_ok (read_csv : string → result (DataFrame F)) path df :
  read_csv path = Ok df →
  ∃ df', load_csv read_csv path = Ok df' ∧
    ∀ c, c ∈ columns df' → c ∈ columns df.
Proof.
  intros Hr. unfold load_csv. rewrite Hr. simpl.
  case_bool_decide as Hu; [|by eexists].
  unfold drop. rewrite bool_decide_eq_true_2 by done.
  eexists. split; [done|]. simpl. intros c Hc.
  apply list_elem_of_In, List.filter_In in Hc as [Hc _]. by apply list_elem_of_In.
Qed.

(** Loading, coercing and sorting add no column. *)
Lemma load_tables_ok (read_csv : string → result (DataFrame F)) troops temp cities :
  read_csv troops_path = Ok troops →
  read_csv temp_path = Ok temp →
  read_csv cities_path = Ok cities →
  ∃ troops' temp' cities',
    load_tables read_csv = Ok (troops', temp', cities') ∧
    (∀ c, c ∈ columns troops' → c ∈ columns troops) ∧
    (∀ c, c ∈ columns temp' → c ∈ columns temp) ∧
    (∀ c, c ∈ columns cities' → c ∈ columns cities).
Proof.
  intros H1 H2 H3. unfold load_tables.
  destruct (load_csv_ok _ _ _ H1) as (t1 & -> & Ht1).
  destruct (load_csv_ok _ _ _ H2) as (t2 & -> & Ht2).
  destruct (load_csv_ok _ _ _ H3) as (t3 & -> & Ht3).
  run_result. rewrite !to_numeric_spec. run_result.
  match goal with |- context [sort_troops ?d] =>
    destruct (sort_troops_ok d) as (r1 & -> & _) end.
  run_result.
  match goal with |- context [sort_by_X ?d] =>
    destruct (sort_by_X_ok d) as (r2 & -> & _) end.
  run_result.
  match goal with |- context [sort_by_X ?d] =>
    destruct (sort_by_X_ok d) as (r3 & -> & _) end.
  run_result. by eexists _, _, _.
Qed.

(** C5.  When the three files load and the troops table has no [survivors]
    column, the run stops with the error that names the columns the troops
    table must have, and nothing has been drawn by then. *)
Theorem missing_survivors_fails_before_drawing
    (read_csv : string → result (DataFrame F)) (troops temp cities : DataFrame F) :
  read_csv troops_path = Ok troops →
  read_csv temp_path = Ok temp →
  read_csv cities_path = Ok cities →
  "survivors" ∉ columns troops →
  main read_csv
  = ([], Raise (ValueError "Troops CSV must include columns: ['lat', 'long', 'survivors']")).
Proof.
  intros H1 H2 H3 Hs. unfold main.
  destruct (load_tables_ok _ _ _ _ H1 H2 H3) as (t1 & t2 & t3 & -> & Ht & _).
  assert (Hsub : issubset needed_troops t1 = false).
  { apply (issubset_missing _ _ "survivors"); [set_solver|]. intros Hc. by apply Hs, Ht. }
  run_drawing. unfold basic_checks. rewrite Hsub. done.
Qed.

End Validator.

(** ** Arithmetic on [real64] *)

Section RealArithmetic.
Local Open Scope R_scope.

Lemma real64_dec_value (m : Z) (k : nat) : fdec m k = Fin (IZR m / 10 ^ k).
Proof. reflexivity. Qed.

Lemma real64_zero_literal : fdec (F:=real64) 0 0 = Fin 0.
Proof. rewrite real64_dec_value. f_equal. simpl. lra. Qed.

Lemma py_truediv_real (x y : R) :
  y ≠ 0 → py_truediv (Fin x) (Fin y) = Ok (Fin (x / y)).
Proof.
  intros Hy. unfold py_truediv. rewrite real64_zero_literal. simpl.
  destruct (Req_dec_T y 0) as [->|_]; [done|].
  destruct (Req_dec_T y 0) as [->|_]; done.
Qed.

Lemma py_truediv_real_zero (x : real64) : py_truediv x (Fin 0) = Raise ZeroDivisionError.
Proof.
  unfold py_truediv. rewrite real64_zero_literal. simpl.
  destruct (Req_dec_T 0 0); done.
Qed.

Lemma linewidth_real (surv max_surv : R) :
  0 < max_surv →
  linewidth (Fin surv) (Fin max_surv) = Ok (linewidth_value surv max_surv).
Proof.
  intros Hm. unfold linewidth, linewidth_value.
  rewrite py_truediv_real by lra. run_result. f_equal.
  rewrite !real64_dec_value. simpl.
  pose proof (Rinv_0_lt_compat _ Hm) as Hi.
  destruct (Rlt_dec (surv / max_surv) 0) as [Hq|Hq], (Rlt_dec surv 0) as [Hs|Hs]; try done.
  - exfalso. unfold Rdiv in Hq. nra.
  - exfalso. apply Hq. unfold Rdiv. nra.
  - f_equal. lra.
Qed.

End RealArithmetic.


(** ** One route segment *)

Section Segment.
Context {F : Type} {arith : Float64 F}.

Lemma item_present (cols : list string) (r : gmap string (cell F)) c :
  c ∈ cols → item (mkSeries cols r) c = Ok (cell_at r c).
Proof. intros Hc. unfold item. simpl. by rewrite bool_decide_eq_true_2. Qed.

Lemma cell_at_as_float64 (r : gmap string (cell F)) (c : string) :
  cell_at (as_float64 <$> r) c = as_float64 (cell_at r c).
Proof. unfold cell_at. rewrite lookup_fmap. by destruct (r !! c). Qed.

(** What a row holds once it is handed out as a Series: the same cell, or the
    float of its whole number. *)
Lemma row_series_cell (cols : list string) (r : gmap string (cell F)) (c : string) :
  cell_at (values (row_series cols r)) c = cell_at r c
  ∨ cell_at (values (row_series cols r)) c = as_float64 (cell_at r c).
Proof.
  unfold row_series. cbn [values].
  destruct (existsb _ cols); [by left|].
  destruct (existsb _ cols); [right; apply cell_at_as_float64|by left].
Qed.

Lemma as_number_as_float64 (v : cell F) : as_number (as_float64 v) = as_number v.
Proof. by destruct v. Qed.

Lemma py_float_as_float64 (v : cell F) : py_float (as_float64 v) = py_float v.
Proof. by destruct v. Qed.

Lemma float_of_cell_as_float64 (v : cell F) : float_of_cell (as_float64 v) = float_of_cell v.
Proof. by destruct v. Qed.

Lemma row_series_number (cols : list string) (r : gmap string (cell F)) (c : string) :
  as_number (cell_at (values (row_series cols r)) c) = as_number (cell_at r c).
Proof. destruct (row_series_cell cols r c) as [-> | ->]; by rewrite ?as_number_as_float64. Qed.

Lemma row_series_float (cols : list string) (r : gmap string (cell F)) (c : string) :
  py_float (cell_at (values (row_series cols r)) c) = py_float (cell_at r c).
Proof. destruct (row_series_cell cols r c) as [-> | ->]; by rewrite ?py_float_as_float64. Qed.

Lemma row_series_float_of_cell (cols : list string) (r : gmap string (cell F)) (c : string) :
  float_of_cell (cell_at (values (row_series cols r)) c) = float_of_cell (cell_at r c).
Proof.
  destruct (row_series_cell cols r c) as [-> | ->]; by rewrite ?float_of_cell_as_float64.
Qed.

Lemma item_row_series (cols : list string) (r : gmap string (cell F)) c :
  c ∈ cols → item (row_series cols r) c = Ok (cell_at (values (row_series cols r)) c).
Proof. intros Hc. unfold item. cbn [index row_series]. by rewrite bool_decide_eq_true_2. Qed.

Lemma as_number_float_of_cell (v : cell F) (x : F) :
  as_number v = Ok x → float_of_cell v = x.
Proof. destruct v; cbn; congruence. Qed.

(** The sum of two numbers never fails. *)
Lemma np_add_numbers (v1 v2 : cell F) (x1 x2 : F) :
  as_number v1 = Ok x1 → as_number v2 = Ok x2 →
  (s ← np_add v1 v2; as_number s) = Ok (pair_sum v1 v2).
Proof. destruct v1, v2; cbn; intros [= <-] [= <-]; done. Qed.

Lemma pair_survivors_numbers (p1 p2 : Series F) (x1 x2 : F) :
  "survivors" ∈ index p1 → "survivors" ∈ index p2 →
  as_number (cell_at (values p1) "survivors") = Ok x1 →
  as_number (cell_at (values p2) "survivors") = Ok x2 →
  pair_survivors p1 p2
  = Ok (fdiv (pair_sum (cell_at (values p1) "survivors") (cell_at (values p2) "survivors"))
          (fdec 2 0)).
Proof.
  intros Hi1 Hi2 H1 H2. unfold pair_survivors, item.
  rewrite !bool_decide_eq_true_2 by done. run_result.
  pose proof (np_add_numbers _ _ _ _ H1 H2) as Hsum.
  destruct (np_add _ _) as [s|e]; run_result; revert Hsum; run_result; [|done].
  by intros ->.
Qed.

(** A segment between two rows: it is drawn with the linewidth of line 98, or
    the run stops where lines 95 and 98 do, with nothing of the segment
    drawn. *)
Lemma draw_segment_run (max_surv : F) (ls : linestyle) (gdf : DataFrame F) (i : nat)
    (r1 r2 : gmap string (cell F)) :
  issubset needed_troops gdf = true →
  rows gdf !! i = Some r1 →
  rows gdf !! (i + 1) = Some r2 →
  draw_segment max_surv ls gdf i
  = match pair_survivors (row_series (columns gdf) r1) (row_series (columns gdf) r2) with
    | Ok surv =>
        match linewidth surv max_surv with
        | Ok lw => (segment_ops ls gdf i lw, Ok tt)
        | Raise e => ([], Raise e)
        end
    | Raise e => ([], Raise e)
    end.
Proof.
  intros Hsub H1 H2.
  assert (Hin : ∀ c, c ∈ needed_troops → c ∈ columns gdf).
  { intros c Hc. unfold issubset in Hsub. rewrite forallb_forall in Hsub.
    apply list_elem_of_In, Hsub in Hc. by apply bool_decide_eq_true_1 in Hc. }
  unfold draw_segment, segment_ops, row_at, iloc. rewrite H1, H2. cbn [default].
  run_drawing.
  destruct (pair_survivors _ _) as [surv|e]; run_drawing; [|done].
  destruct (linewidth surv max_surv) as [lw|e]; run_drawing; [|done].
  rewrite !item_row_series by (apply Hin; set_solver). run_drawing. done.
Qed.

End Segment.

(** ** Linewidth of a segment, on reals *)

Section Linewidth.
Local Open Scope R_scope.








End Linewidth.

(** ** Range and monotonicity of the linewidth *)

Section LinewidthRange.
Local Open Scope R_scope.

Lemma linewidth_value_fin (surv max_surv : R) :
  0 <= surv → linewidth_value surv max_surv = Fin (1 / 2 + 23 / 2 * sqrt (surv / max_surv)).
Proof. intros Hs. unfold linewidth_value. destruct (Rlt_dec surv 0); [lra|done]. Qed.

Lemma ratio_bounds (s max_surv : R) :
  0 < max_surv → 0 <= s <= max_surv → 0 <= s / max_surv <= 1.
Proof.
  intros Hm [Hs Hsm]. pose proof (Rinv_0_lt_compat _ Hm) as Hi. split.
  - unfold Rdiv. nra.
  - apply (Rmult_le_reg_r max_surv); [done|]. unfold Rdiv.
    rewrite Rmult_assoc, Rinv_l by lra. lra.
Qed.

(** C2.  With a positive maximum, every survivor count between 0 and the
    maximum gets a linewidth between 0.5 and 12, and a larger count never gets
    a smaller linewidth. *)
Theorem linewidth_range_and_monotone (max_surv : R) :
  0 < max_surv →
  (∀ s, 0 <= s <= max_surv →
     ∃ v, linewidth (Fin s) (Fin max_surv) = Ok (Fin v)
          ∧ v = 1 / 2 + 23 / 2 * sqrt (s / max_surv)
          ∧ 1 / 2 <= v <= 12)
  ∧ (∀ s s', 0 <= s → s <= s' →
       ∃ v v', linewidth (Fin s) (Fin max_surv) = Ok (Fin v)
               ∧ linewidth (Fin s') (Fin max_surv) = Ok (Fin v')
               ∧ v <= v').
Proof.
  intros Hm. split.
  - intros s Hs. eexists. split; [|split; [reflexivity|]].
    + rewrite linewidth_real by done. by rewrite linewidth_value_fin by lra.
    + destruct (ratio_bounds s max_surv Hm Hs) as [H0 H1].
      pose proof (sqrt_pos (s / max_surv)) as Hp.
      pose proof (sqrt_le_1_alt _ _ H1) as Hle. rewrite sqrt_1 in Hle. lra.
  - intros s s' Hs Hss. eexists _, _. split; [|split].
    + rewrite linewidth_real by done. by rewrite linewidth_value_fin by lra.
    + rewrite linewidth_real by done. by rewrite linewidth_value_fin by lra.
    + assert (Hq : s / max_surv <= s' / max_surv).
      { pose proof (Rinv_0_lt_compat _ Hm). unfold Rdiv. nra. }
      pose proof (sqrt_le_1_alt _ _ Hq). lra.
Qed.

End LinewidthRange.

(** ** The temperature mapping, on reals *)

Section TemperatureMapping.
Local Open Scope R_scope.

Lemma temp_to_y_real (temp_min temp_max y_base span t : R) :
  temp_min ≠ temp_max →
  temp_to_y (Fin temp_min) (Fin temp_max) (Fin y_base) (Fin span) (Fin t)
  = Fin (y_base + (t - temp_min) / (temp_max - temp_min) * span).
Proof.
  intros Hne. unfold temp_to_y. simpl.
  destruct (Req_dec_T (temp_max - temp_min) 0) as [H|_]; [lra|done].
Qed.

Lemma label_y_real (temp_min temp_max y_base span t : R) :
  temp_min ≠ temp_max →
  label_y (Fin temp_min) (Fin temp_max) (Fin y_base) (Fin span) (Fin t)
  = Ok (Fin (y_base + (t - temp_min) / (temp_max - temp_min) * span)).
Proof.
  intros Hne. unfold label_y. simpl.
  rewrite py_truediv_real by lra. done.
Qed.

(** C3.  With [temp_min ≠ temp_max] the temperature mapping is affine in the
    temperature (on the column, line 131, and row by row, line 139), and when
    [y_span ≠ 0] as well the inverse map gives the temperature back exactly. *)
Theorem temperature_mapping_affine_invertible (temp_min temp_max y_base span : R) :
  temp_min ≠ temp_max →
  (∃ a b, ∀ t,
     temp_to_y (Fin temp_min) (Fin temp_max) (Fin y_base) (Fin span) (Fin t)
     = Fin (a * t + b)
     ∧ label_y (Fin temp_min) (Fin temp_max) (Fin y_base) (Fin span) (Fin t)
       = Ok (Fin (a * t + b)))
  ∧ (span ≠ 0 → ∀ t,
     y_to_temp (Fin temp_min) (Fin temp_max) (Fin y_base) (Fin span)
       (temp_to_y (Fin temp_min) (Fin temp_max) (Fin y_base) (Fin span) (Fin t))
     = Fin t).
Proof.
  intros Hne. split.
  - exists (span / (temp_max - temp_min)),
           (y_base - temp_min * span / (temp_max - temp_min)).
    intros t. rewrite temp_to_y_real, label_y_real by done.
    split; [f_equal | do 2 f_equal]; field; lra.
  - intros Hs t. rewrite temp_to_y_real by done. unfold y_to_temp. simpl.
    destruct (Req_dec_T span 0) as [H|_]; [done|]. simpl. f_equal. field. lra.
Qed.

End TemperatureMapping.

(** ** Minimum and maximum of a column, on reals *)

Section Extremes.
Local Open Scope R_scope.

Lemma nan_min_is_nan (l : list real64) :
  fis_nan (nan_min l) = forallb fis_nan l.
Proof.
  unfold nan_min. change (forallb fis_nan l) with (fis_nan (F:=real64) fnan && forallb fis_nan l).
  generalize (fnan (F:=real64)). induction l as [|x l IH]; intros acc; cbn [foldl].
  - simpl. by rewrite andb_true_r.
  - rewrite IH. destruct x as [x|], acc as [a|]; simpl; try done.
    by destruct (Rlt_dec x a).
Qed.

Lemma nan_max_is_nan (l : list real64) :
  fis_nan (nan_max l) = forallb fis_nan l.
Proof.
  unfold nan_max. change (forallb fis_nan l) with (fis_nan (F:=real64) fnan && forallb fis_nan l).
  generalize (fnan (F:=real64)). induction l as [|x l IH]; intros acc; cbn [foldl].
  - simpl. by rewrite andb_true_r.
  - rewrite IH. destruct x as [x|], acc as [a|]; simpl; try done.
    by destruct (Rlt_dec a x).
Qed.

(** A column has a minimum exactly when it has a maximum. *)
Lemma nan_min_max_fin (l : list real64) :
  (∃ a, nan_min l = Fin a) ↔ (∃ b, nan_max l = Fin b).
Proof.
  pose proof (nan_min_is_nan l) as Hmin. pose proof (nan_max_is_nan l) as Hmax.
  rewrite <- Hmax in Hmin.
  split; intros [v Hv]; rewrite Hv in *; simpl in *.
  - destruct (nan_max l); [by eexists|done].
  - destruct (nan_min l); [by eexists|done].
Qed.

Lemma real64_eqb_true (a b : real64) :
  feqb a b = true → ∃ x, a = Fin x ∧ b = Fin x.
Proof.
  destruct a as [x|], b as [y|]; simpl; try done.
  destruct (Req_dec_T x y) as [->|]; [by eexists|done].
Qed.

Lemma series_min_max (temp : DataFrame real64) (c : string) (lo hi : real64) :
  series_min temp c = Ok lo → series_max temp c = Ok hi →
  ∃ xs, lo = nan_min xs ∧ hi = nan_max xs.
Proof.
  unfold series_min, series_max.
  destruct (getitem temp c) as [s|]; [|done]. run_result.
  destruct (mapM as_number s) as [xs|]; [|done]. run_result.
  intros [= <-] [= <-]. by eexists.
Qed.

(** C7.  In a temperature table whose minimum and maximum differ, a reading
    equal to the maximum is mapped to [y_base + y_span] and a reading equal to
    the minimum is mapped to [y_base], exactly. *)
Theorem temperature_extremes (temp : DataFrame real64) (temp_min temp_max y_base : real64) :
  series_min temp "temp" = Ok temp_min →
  series_max temp "temp" = Ok temp_max →
  feqb temp_min temp_max = false →
  (∀ t, feqb t temp_max = true →
     temp_to_y temp_min temp_max y_base y_span t = fadd y_base y_span)
  ∧ (∀ t, feqb t temp_min = true →
     temp_to_y temp_min temp_max y_base y_span t = y_base).
Proof.
  intros Hmin Hmax Hne.
  destruct (series_min_max _ _ _ _ Hmin Hmax) as (xs & -> & ->).
  pose proof (nan_min_max_fin xs) as Hfin.
  split; intros t Ht; apply real64_eqb_true in Ht as (x & -> & Hx).
  - destruct (proj2 Hfin (ex_intro _ x Hx)) as [a Ha].
    rewrite Hx, Ha in *. simpl in Hne.
    destruct (Req_dec_T a x) as [|Hax]; [done|].
    unfold temp_to_y, y_span. simpl.
    destruct (Req_dec_T (x - a) 0) as [|_]; [lra|].
    destruct y_base as [yb|]; simpl; [|done]. f_equal. field. lra.
  - destruct (proj1 Hfin (ex_intro _ x Hx)) as [b Hb].
    rewrite Hx, Hb in *. simpl in Hne.
    destruct (Req_dec_T x b) as [|Hxb]; [done|].
    unfold temp_to_y, y_span. simpl.
    destruct (Req_dec_T (b - x) 0) as [|_]; [lra|].
    destruct y_base as [yb|]; simpl; [|done]. f_equal. field. lra.
Qed.

End Extremes.

(** ** Running a drawing step by step *)

Section DrawingSteps.
Context {F : Type}.

Lemma bind_lift_Ok {A B} (a : A) (f : A → drawing F B) : lift (Ok a) ≫= f = f a.
Proof. unfold lift. cbn [mbind drawing_bind]. by destruct (f a). Qed.

Lemma bind_lift_Raise {A B} (e : exn) (f : A → drawing F B) :
  lift (Raise e) ≫= f = ([], Raise e).
Proof. done. Qed.

Lemma bind_emit {B} (op : draw_op F) (f : unit → drawing F B) :
  emit op ≫= f = after [op] (f tt).
Proof. unfold emit, after. cbn [mbind drawing_bind]. by destruct (f tt). Qed.

Lemma after_pair {A} (t t' : list (draw_op F)) (r : result A) :
  after t (t', r) = (t ++ t', r).
Proof. done. Qed.

Lemma bind_raised {A B} (t : list (draw_op F)) (e : exn) (f : A → drawing F B) :
  ((t, Raise e) : drawing F A) ≫= f = (t, Raise e).
Proof. done. Qed.

Lemma bind_done {A B} (t : list (draw_op F)) (a : A) (f : A → drawing F B) :
  ((t, Ok a) : drawing F A) ≫= f = after t (f a).
Proof. unfold after. cbn [mbind drawing_bind]. by destruct (f a). Qed.

Lemma for_each_cons {A} (x : A) (l : list A) (body : A → drawing F unit) :
  for_each (x :: l) body = body x ≫= λ _, for_each l body.
Proof. done. Qed.

End DrawingSteps.


(** ** Division by zero *)

Section ZeroMaximum.
Context {F : Type} {arith : Float64 F}.

Lemma index_row_series (cols : list string) (r : gmap string (cell F)) :
  index (row_series cols r) = cols.
Proof. done. Qed.

(** Two rows with numbers for [survivors] have an average. *)
Lemma pair_survivors_rows (cols : list string) (r1 r2 : gmap string (cell F)) (s1 s2 : F) :
  "survivors" ∈ cols →
  as_number (cell_at r1 "survivors") = Ok s1 →
  as_number (cell_at r2 "survivors") = Ok s2 →
  ∃ surv, pair_survivors (row_series cols r1) (row_series cols r2) = Ok surv.
Proof.
  intros Hc H1 H2. eexists.
  apply (pair_survivors_numbers _ _ s1 s2); by rewrite ?row_series_number.
Qed.

(** C9, as the code has it.  When the maximum survivor count is zero,
    [surv / max_surv] is a division of Python floats by zero: it raises
    [ZeroDivisionError] whatever [surv] is, unguarded, so a segment stops the
    run before anything of it is drawn and no linewidth comes out, NaN or
    other. *)
Theorem zero_max_survivors_raises (max_surv : F) :
  feqb max_surv (fdec 0 0) = true →
  (∀ surv, linewidth surv max_surv = Raise ZeroDivisionError)
  ∧ (∀ ls (gdf : DataFrame F) i r1 r2 s1 s2,
       issubset needed_troops gdf = true →
       rows gdf !! i = Some r1 →
       rows gdf !! (i + 1) = Some r2 →
       as_number (cell_at r1 "survivors") = Ok s1 →
       as_number (cell_at r2 "survivors") = Ok s2 →
       draw_segment max_surv ls gdf i = ([], Raise ZeroDivisionError)).
Proof.
  intros Hz.
  assert (Hlw : ∀ surv, linewidth surv max_surv = Raise ZeroDivisionError).
  { intros surv. unfold linewidth, py_truediv. by rewrite Hz. }
  split; [done|].
  intros ls gdf i r1 r2 s1 s2 Hsub H1 H2 Hs1 Hs2.
  rewrite (draw_segment_run _ _ _ _ _ _ Hsub H1 H2).
  destruct (pair_survivors_rows (columns gdf) r1 r2 s1 s2) as [surv ->]; [|done..|].
  { apply (proj1 (issubset_spec _ _) Hsub). set_solver. }
  by rewrite Hlw.
Qed.

Lemma getitem_present (df : DataFrame F) (c : string) :
  c ∈ columns df → getitem df c = Ok ((λ r, cell_at r c) <$> rows df).
Proof. intros Hc. unfold getitem. by rewrite bool_decide_eq_true_2. Qed.

Lemma mapM_as_number_CNum (xs : list F) : mapM as_number (CNum <$> xs) = Ok xs.
Proof.
  induction xs as [|x xs IH]; [done|].
  cbn [fmap list_fmap mapM]. rewrite IH. done.
Qed.

(** The floats of a column of numbers. *)
Lemma mapM_as_number_floats (s : list (cell F)) :
  (∀ v, v ∈ s → ∃ x, as_number v = Ok x) →
  mapM as_number s = Ok (float_of_cell <$> s).
Proof.
  induction s as [|v s IH]; intros Hnum; [done|].
  cbn [fmap list_fmap mapM]. destruct (Hnum v) as [x Hx]; [by left|].
  rewrite Hx, IH by (intros; apply Hnum; by right). run_result.
  by rewrite (as_number_float_of_cell v x).
Qed.

Lemma as_number_py_float (v : cell F) (x : F) : as_number v = Ok x → py_float v = Ok x.
Proof. destruct v; cbn; congruence. Qed.

End ZeroMaximum.

Section ConstantTemperature.
Local Open Scope R_scope.

Lemma nan_min_constant (t : R) (n : nat) : nan_min (replicate (S n) (Fin t)) = Fin t.
Proof.
  unfold nan_min. cbn [replicate foldl]. simpl.
  induction n as [|n IH]; [done|]. cbn [replicate foldl]. simpl.
  by destruct (Rlt_dec t t).
Qed.

Lemma nan_max_constant (t : R) (n : nat) : nan_max (replicate (S n) (Fin t)) = Fin t.
Proof.
  unfold nan_max. cbn [replicate foldl]. simpl.
  induction n as [|n IH]; [done|]. cbn [replicate foldl]. simpl.
  by destruct (Rlt_dec t t).
Qed.

Lemma constant_column (temp : DataFrame real64) (c : string) (x : real64) :
  c ∈ columns temp →
  (∀ r, r ∈ rows temp → as_number (cell_at r c) = Ok x) →
  ∃ s, getitem temp c = Ok s
    ∧ mapM as_number s = Ok (replicate (length (rows temp)) x).
Proof.
  intros Hc Hall. rewrite getitem_present by done. eexists. split; [done|].
  induction (rows temp) as [|r rs IH]; [done|]. cbn [fmap list_fmap length replicate mapM].
  rewrite Hall by set_solver. rewrite IH by (intros; apply Hall; set_solver). done.
Qed.

(** C4, as the code has it.  In a temperature table whose readings are all
    the same number, minimum and maximum coincide and the mapping divides by
    their difference, zero: on the column (line 131) every reading is mapped
    to NaN, and row by row (line 139) the division raises
    [ZeroDivisionError], which ends the run after the curve is plotted and
    before the first label. *)
Theorem constant_temperature_divides_by_zero
    (temp : DataFrame real64) (t : R) (min_lat : real64) :
  issubset needed_temp temp = true →
  rows temp ≠ [] →
  (∀ r, r ∈ rows temp → as_number (cell_at r "temp") = Ok (Fin t)) →
  series_min temp "temp" = Ok (Fin t)
  ∧ series_max temp "temp" = Ok (Fin t)
  ∧ fsub (Fin t) (Fin t) = Fin 0
  ∧ (∀ y_base, temp_to_y (Fin t) (Fin t) y_base y_span (Fin t) = NaN)
  ∧ (∀ y_base u, label_y (Fin t) (Fin t) y_base y_span u = Raise ZeroDivisionError)
  ∧ draw_temperature temp min_lat
    = ([SetPropCycle;
        Plot ((λ r, cell_at r "long") <$> rows temp)
             (replicate (length (rows temp)) (CNum NaN))
             (fdec 15 1) Dotted (Some "o") (Some "Temperature (dotted)")],
       Raise ZeroDivisionError).
Proof.
  intros Hsub Hne Hall.
  pose proof (proj1 (issubset_spec _ _) Hsub) as Hin.
  assert (Hlong : "long" ∈ columns temp) by (apply Hin; set_solver).
  assert (Htemp : "temp" ∈ columns temp) by (apply Hin; set_solver).
  destruct (constant_column temp "temp" _ Htemp Hall) as (s & Hcol & Hs).
  destruct (rows temp) as [|r rs] eqn:Hrows; [done|]. cbn [length] in Hs.
  assert (Hsub0 : fsub (Fin t) (Fin t) = Fin 0) by (simpl; f_equal; lra).
  assert (Hmap : ∀ y_base, temp_to_y (Fin t) (Fin t) y_base y_span (Fin t) = NaN).
  { intros y_base. unfold temp_to_y. rewrite Hsub0. simpl.
    destruct (Req_dec_T 0 0); [|done]. by destruct y_base. }
  assert (Hlab : ∀ y_base u,
            label_y (Fin t) (Fin t) y_base y_span u = Raise ZeroDivisionError).
  { intros y_base u. unfold label_y. rewrite Hsub0. by rewrite py_truediv_real_zero. }
  assert (Hmin : series_min temp "temp" = Ok (Fin t)).
  { unfold series_min. rewrite Hcol. run_result. rewrite Hs. run_result.
    by rewrite nan_min_constant. }
  assert (Hmax : series_max temp "temp" = Ok (Fin t)).
  { unfold series_max. rewrite Hcol. run_result. rewrite Hs. run_result.
    by rewrite nan_max_constant. }
  repeat split; try done.
  unfold draw_temperature. rewrite Hmin, Hmax, Hcol. rewrite !bind_lift_Ok.
  rewrite Hs, bind_lift_Ok, bind_emit.
  rewrite getitem_present, bind_lift_Ok, bind_emit by done.
  unfold iterrows. rewrite Hrows. cbn [fmap list_fmap]. rewrite for_each_cons.
  assert (Hfirst : ∀ y_base,
            draw_temp_label temp (Fin t) (Fin t) y_base (row_series (columns temp) r)
            = ([], Raise ZeroDivisionError)).
  { intros y_base. unfold draw_temp_label.
    rewrite (item_row_series _ _ "temp"), bind_lift_Ok by done.
    rewrite row_series_float, (as_number_py_float _ (Fin t)) by (apply Hall; set_solver).
    by rewrite bind_lift_Ok, Hlab, bind_lift_Raise. }
  rewrite Hfirst, bind_raised, !after_pair. cbn [app].
  do 3 f_equal. rewrite fmap_replicate, fmap_replicate. by rewrite Hmap.
Qed.

End ConstantTemperature.

(** ** The route *)

Section Route.
Context {F : Type} {arith : Float64 F} {unicode : CaseMapping}.

Global Instance rows_leb_total (by_ : list string) :
  Total (le_of (rows_leb (F:=F) by_)).
Proof.
  intros r1 r2. unfold le_of. induction by_ as [|c cs IH]; [by left|].
  cbn [rows_leb].
  destruct (cell_ltb (cell_at r1 c) (cell_at r2 c)) eqn:E12,
           (cell_ltb (cell_at r2 c) (cell_at r1 c)) eqn:E21; simpl; auto.
Qed.

Lemma sort_by_X_path (df : DataFrame F) :
  sort_by_X df = Ok (mkDF (columns df) (path_of df)).
Proof.
  unfold sort_by_X, path_of. case_bool_decide as HX.
  - apply sort_values_ok. by intros c ->%list_elem_of_singleton.
  - by destruct df.
Qed.

Lemma path_of_perm (df : DataFrame F) : path_of df ≡ₚ rows df.
Proof.
  unfold path_of. case_bool_decide; [|done]. apply merge_sort_Permutation.
Qed.

Lemma path_of_sorted (df : DataFrame F) :
  "X" ∈ columns df → Sorted (le_of (rows_leb ["X"])) (path_of df).
Proof.
  intros HX. unfold path_of. rewrite bool_decide_eq_true_2 by done.
  apply (Sorted_merge_sort _).
Qed.

Lemma draw_troops_plan (max_surv : F) (troops : DataFrame F) :
  draw_troops max_surv troops
  = for_each (route_plan troops) (λ '(ls, path), draw_path max_surv ls path).
Proof.
  unfold draw_troops, route_plan. destruct (issubset _ troops).
  - induction (groupby troops) as [|[[g d] gdf] l IH]; [done|].
    cbn [fmap list_fmap]. rewrite !for_each_cons, IH. f_equal.
    by rewrite sort_by_X_path, bind_lift_Ok.
  - rewrite sort_by_X_path, bind_lift_Ok, for_each_cons. cbn [for_each].
    destruct (draw_path _ _ _) as [t [[]|e]]; cbn; by rewrite ?app_nil_r.
Qed.

Lemma draw_segment_cases (max_surv : F) (ls : linestyle) (path : DataFrame F) (i : nat) :
  issubset needed_troops path = true →
  i + 1 < length (rows path) →
  (∃ e, draw_segment max_surv ls path i = ([], Raise e))
  ∨ (∃ lw, draw_segment max_surv ls path i = (segment_ops ls path i lw, Ok tt)).
Proof.
  intros Hsub Hi.
  destruct (lookup_lt_is_Some_2 (rows path) i) as [r1 H1]; [lia|].
  destruct (lookup_lt_is_Some_2 (rows path) (i + 1)) as [r2 H2]; [done|].
  rewrite (draw_segment_run _ _ _ _ _ _ Hsub H1 H2).
  destruct (pair_survivors _ _) as [surv|e]; [|left; by eexists].
  destruct (linewidth surv max_surv) as [lw|e]; [right|left]; by eexists.
Qed.

Lemma for_each_seq_trace (body : nat → drawing F unit)
    (ops : nat → F → list (draw_op F)) (a m : nat) :
  (∀ i, a ≤ i < a + m →
     (∃ e, body i = ([], Raise e)) ∨ (∃ lw, body i = (ops i lw, Ok tt))) →
  ∃ lws, length lws ≤ m
    ∧ (for_each (seq a m) body).1 = concat (imap (λ j, ops (a + j)) lws)
    ∧ ((for_each (seq a m) body).2 = Ok tt → length lws = m).
Proof.
  revert a. induction m as [|m IH]; intros a Hbody.
  - exists []. by cbn.
  - cbn [seq]. rewrite for_each_cons.
    destruct (Hbody a) as [[e He]|[lw Hlw]]; [lia|..].
    + exists []. rewrite He, bind_raised. cbn. split; [lia|done].
    + destruct (IH (S a)) as (lws & Hlen & Htrace & Hok).
      { intros i Hi. apply Hbody. lia. }
      exists (lw :: lws). rewrite Hlw, bind_done. unfold after. cbn [fst snd length].
      split; [lia|]. split.
      * rewrite Htrace. cbn [imap concat]. rewrite Nat.add_0_r. f_equal. f_equal.
        apply imap_ext. intros j x _. simpl. f_equal. lia.
      * intros Hr. f_equal. by apply Hok.
Qed.

(** The segments of a path: drawn for rows 0 and 1, 1 and 2, and so on, in
    that order, up to where a segment fails, if one does. *)
Lemma draw_path_trace (max_surv : F) (ls : linestyle) (path : DataFrame F) :
  issubset needed_troops path = true →
  ∃ lws, length lws ≤ length (rows path) - 1
    ∧ (draw_path max_surv ls path).1 = concat (imap (segment_ops ls path) lws)
    ∧ ((draw_path max_surv ls path).2 = Ok tt →
       length lws = length (rows path) - 1).
Proof.
  intros Hsub. unfold draw_path.
  apply (for_each_seq_trace _ (segment_ops ls path) 0).
  intros i Hi. apply draw_segment_cases; [done|lia].
Qed.

Lemma groupby_elem (troops : DataFrame F) (k : cell F * cell F) (gdf : DataFrame F) :
  (k, gdf) ∈ groupby troops →
  gdf = mkDF (columns troops) (List.filter (in_group k) (rows troops)).
Proof.
  unfold groupby. intros (k' & [= -> ->] & _)%list_elem_of_fmap. done.
Qed.

Lemma for_each_fmap {A B} (f : A → B) (l : list A) (body : B → drawing F unit) :
  for_each (f <$> l) body = for_each l (body ∘ f).
Proof. induction l as [|x l IH]; [done|]. cbn [fmap list_fmap for_each]. by rewrite IH. Qed.

Lemma for_each_ext {A} (l : list A) (body body' : A → drawing F unit) :
  (∀ x, x ∈ l → body x = body' x) → for_each l body = for_each l body'.
Proof.
  induction l as [|x l IH]; intros Hb; [done|]. cbn [for_each].
  rewrite Hb, IH by (by left || (intros; apply Hb; by right)). done.
Qed.

Lemma groupby_keys (troops : DataFrame F) :
  (groupby troops).*1
  = merge_sort (le_of key_leb) (uniq key_eqb (omap group_key (rows troops))).
Proof.
  unfold groupby. rewrite <- list_fmap_compose. apply list_fmap_id.
Qed.

Lemma elem_of_uniq {A} (eqb : A → A → bool) (l : list A) (x : A) :
  (∀ a b, eqb a b = true → a = b) →
  x ∈ uniq eqb l ↔ x ∈ l.
Proof.
  intros Heq. induction l as [|y l IH]; [done|]. cbn [uniq].
  rewrite !elem_of_cons, list_elem_of_In, List.filter_In, <- list_elem_of_In, IH.
  split; [tauto|]. intros [->|Hx]; [by left|].
  destruct (eqb y x) eqn:E; [left; symmetry; by apply Heq|right; by split].
Qed.

Lemma NoDup_uniq {A} (eqb : A → A → bool) (l : list A) :
  (∀ a, a ∈ l → eqb a a = true) → NoDup (uniq eqb l).
Proof.
  intros Hrefl. induction l as [|y l IH]; [constructor|]. cbn [uniq].
  constructor.
  - rewrite list_elem_of_In, List.filter_In. intros [_ Hy].
    rewrite Hrefl in Hy by by left. done.
  - apply NoDup_ListNoDup, List.NoDup_filter, NoDup_ListNoDup, IH.
    intros a Ha. apply Hrefl. by right.
Qed.

Lemma filter_bool {A} (f : A → bool) (P : A → Prop) `{∀ x, Decision (P x)} (l : list A) :
  (∀ x, x ∈ l → f x = true ↔ P x) → List.filter f l = filter P l.
Proof.
  induction l as [|x l IH]; intros Hf; [done|]. cbn [List.filter].
  rewrite IH by (intros; apply Hf; by right).
  destruct (f x) eqn:E.
  - rewrite filter_cons_True; [done|]. apply Hf; [by left|done].
  - rewrite filter_cons_False; [done|]. intros HP. apply Hf in HP; [congruence|by left].
Qed.

End Route.

(** ** The route, on reals *)

Section RouteOnReals.
Context {unicode : CaseMapping}.

(** Two facts of the Unicode character database: every code point has an
    upper case, and the upper case begins with [A] (U+0041) for [A], [a]
    (U+0061) and [ẚ] (U+1E9A) only. *)
Hypothesis toupper_full_nonempty : ∀ c, toupper_full c ≠ [].
Hypothesis toupper_full_A :
  ∀ c, head (toupper_full c) = Some 65%N ↔ c ∈ [65; 97; 7834]%N.

Lemma startswith_upper_A (s : list N) :
  startswith (upper s) [65%N]
  = match s with
    | c :: _ => bool_decide (c ∈ [65; 97; 7834]%N)
    | [] => false
    end.
Proof using toupper_full_nonempty toupper_full_A.
  destruct s as [|c s]; [done|]. unfold upper. cbn [List.flat_map].
  pose proof (toupper_full_nonempty c) as Hne. pose proof (toupper_full_A c) as HA.
  destruct (toupper_full c) as [|u us]; [done|]. cbn [app startswith head] in *.
  rewrite andb_true_r. apply bool_decide_ext. rewrite <- HA.
  split; [by intros ->|by intros [= ->]].
Qed.

Lemma str_upper_startswith_A_spec {F} `{Float64 F} (direction : cell F) :
  str_upper_startswith_A direction = begins_with_A direction.
Proof using toupper_full_nonempty toupper_full_A.
  destruct direction as [x|z|s]; [done..|]. cbn. apply startswith_upper_A.
Qed.

Lemma cell_eqb_eq (a b : cell real64) : cell_eqb a b = true → a = b.
Proof.
  destruct a as [[x|]|x|s], b as [[y|]|y|t]; simpl; try done.
  - destruct (Req_dec_T x y) as [->|]; done.
  - by intros ->%Z.eqb_eq.
  - by intros ->%String.eqb_eq.
Qed.

Lemma cell_eqb_refl (a : cell real64) : cell_is_nan a = false → cell_eqb a a = true.
Proof.
  destruct a as [[x|]|x|s]; simpl; try done.
  - by destruct (Req_dec_T x x).
  - intros _. apply Z.eqb_refl.
  - intros _. apply String.eqb_refl.
Qed.

Lemma cell_is_nan_real (v : cell real64) : cell_is_nan v = false ↔ v ≠ CNum NaN.
Proof. destruct v as [[x|]|z|s]; cbn; split; congruence. Qed.

Lemma key_eqb_eq (k1 k2 : cell real64 * cell real64) : key_eqb k1 k2 = true → k1 = k2.
Proof.
  destruct k1, k2. unfold key_eqb. cbn [fst snd].
  intros [H1 H2]%andb_true_iff. f_equal; by apply cell_eqb_eq.
Qed.

Lemma group_key_spec (r : gmap string (cell real64)) (g d : cell real64) :
  group_key r = Some (g, d) ↔ has_key g d r ∧ g ≠ CNum NaN ∧ d ≠ CNum NaN.
Proof.
  unfold group_key, has_key. rewrite <- !cell_is_nan_real.
  destruct (cell_is_nan (cell_at r "group")) eqn:Eg,
           (cell_is_nan (cell_at r "direction")) eqn:Ed; cbn [orb];
    split; try done.
  - intros [[<- <-] [? ?]]. congruence.
  - intros [[<- <-] [? ?]]. congruence.
  - intros [[<- <-] [? ?]]. congruence.
  - by intros [= <- <-].
  - by intros [[<- <-] _].
Qed.

Lemma group_key_refl (r : gmap string (cell real64)) (k : cell real64 * cell real64) :
  group_key r = Some k → key_eqb k k = true.
Proof.
  unfold group_key.
  destruct (cell_is_nan (cell_at r "group")) eqn:Eg; [done|].
  destruct (cell_is_nan (cell_at r "direction")) eqn:Ed; [done|]. cbn [orb].
  intros [= <-]. unfold key_eqb. cbn [fst snd]. by rewrite !cell_eqb_refl.
Qed.

Lemma in_group_spec (g d : cell real64) (r : gmap string (cell real64)) :
  g ≠ CNum NaN → d ≠ CNum NaN →
  in_group (g, d) r = true ↔ has_key g d r.
Proof.
  intros Hg Hd. unfold in_group. split.
  - destruct (group_key r) as [[g' d']|] eqn:Ek; [|done].
    intros [= <- <-]%key_eqb_eq. by apply group_key_spec in Ek as [? _].
  - intros Hk. assert (Ek : group_key r = Some (g, d)) by by apply group_key_spec.
    rewrite Ek. by eapply group_key_refl.
Qed.

Lemma groupby_keys_NoDup (troops : DataFrame real64) : NoDup (groupby troops).*1.
Proof.
  rewrite groupby_keys, merge_sort_Permutation. apply NoDup_uniq.
  intros k (r & _ & Hk)%list_elem_of_omap. by eapply group_key_refl.
Qed.

Lemma elem_of_groupby_keys (troops : DataFrame real64) (g d : cell real64) :
  (g, d) ∈ (groupby troops).*1
  ↔ g ≠ CNum NaN ∧ d ≠ CNum NaN ∧ ∃ r, r ∈ rows troops ∧ has_key g d r.
Proof.
  rewrite groupby_keys, merge_sort_Permutation, elem_of_uniq by apply key_eqb_eq.
  rewrite list_elem_of_omap. split.
  - intros (r & Hr & Hk). apply group_key_spec in Hk as (Hk & Hg & Hd). eauto.
  - intros (Hg & Hd & r & Hr & Hk). exists r. split; [done|]. by apply group_key_spec.
Qed.

(** Sorted by [X] as the table orders its cells means that the sequence keys
    do not decrease. *)
Lemma rows_leb_x_le (r1 r2 : gmap string (cell real64)) (x1 x2 : real64) :
  as_number (cell_at r1 "X") = Ok x1 →
  as_number (cell_at r2 "X") = Ok x2 →
  le_of (rows_leb ["X"]) r1 r2 → x_le r1 r2.
Proof.
  intros H1 H2. unfold le_of, x_le. cbn [rows_leb].
  destruct (cell_at r1 "X") as [[a|]|a|s], (cell_at r2 "X") as [[b|]|b|t];
    try done; cbn.
  - destruct (Rlt_dec a b), (Rlt_dec b a); cbn; intros; try done; lra.
  - destruct (Rlt_dec a (IZR b)), (Rlt_dec (IZR b) a); cbn; intros; try done; lra.
  - destruct (Rlt_dec (IZR a) b), (Rlt_dec b (IZR a)); cbn; intros; try done; lra.
  - destruct (Z.ltb_spec a b), (Z.ltb_spec b a); cbn; intros; try done;
      apply IZR_le; lia.
Qed.

Lemma Sorted_x_le (df : DataFrame real64) (path : list (gmap string (cell real64))) :
  numeric_col df "X" →
  (∀ r, r ∈ path → r ∈ rows df) →
  Sorted (le_of (rows_leb ["X"])) path → Sorted x_le path.
Proof.
  intros Hnum Hin Hs. induction Hs as [|r path Hs IH Hhd]; [constructor|].
  constructor.
  - apply IH. intros r' Hr'. apply Hin. by right.
  - destruct Hhd as [|r' path' Hle]; constructor.
    destruct (Hnum r) as [x1 H1]; [apply Hin; by left|].
    destruct (Hnum r') as [x2 H2]; [apply Hin; right; by left|].
    by eapply rows_leb_x_le.
Qed.

Lemma groupby_columns {F} `{Float64 F} (troops : DataFrame F) k gdf :
  (k, gdf) ∈ groupby troops → columns gdf = columns troops.
Proof. by intros ->%groupby_elem. Qed.

(** C6, as the code has it.  With [group] and [direction] columns the route
    is drawn path by path, one path for every pair of a group and a direction
    that a row of the table has (rows that miss one of the two belong to no
    path): the rows of the table with that pair, in the order of [X] when the
    table has an [X] column and in table order otherwise; its segments are
    solid when the direction is text whose first character is [A], [a] or [ẚ]
    (the test upper-cases the text first) and dashed otherwise.  Without those
    columns there is one solid path of all rows, ordered the same way.
    Within a path the segments join rows 0 and 1, 1 and 2, and so on. *)
Theorem route_grouping_and_styles (max_surv : real64) (troops : DataFrame real64) :
  ("X" ∈ columns troops → numeric_col troops "X") →
  (issubset ["group"; "direction"] troops = true →
     ∃ paths : list ((cell real64 * cell real64) * list (gmap string (cell real64))),
       draw_troops max_surv troops
       = for_each paths (λ '((g, d), path),
           draw_path max_surv (if begins_with_A d then Solid else Dashed)
             (mkDF (columns troops) path))
       ∧ NoDup paths.*1
       ∧ (∀ g d, (g, d) ∈ paths.*1
            ↔ g ≠ CNum NaN ∧ d ≠ CNum NaN ∧ ∃ r, r ∈ rows troops ∧ has_key g d r)
       ∧ Forall (λ '((g, d), path),
                   path ≡ₚ filter (has_key g d) (rows troops)
                   ∧ ("X" ∈ columns troops → Sorted x_le path)
                   ∧ ("X" ∉ columns troops → path = filter (has_key g d) (rows troops)))
                paths)
  ∧ (issubset ["group"; "direction"] troops = false →
     ∃ path,
       draw_troops max_surv troops
       = draw_path max_surv Solid (mkDF (columns troops) path)
       ∧ path ≡ₚ rows troops
       ∧ ("X" ∈ columns troops → Sorted x_le path)
       ∧ ("X" ∉ columns troops → path = rows troops))
  ∧ (∀ ls path, issubset needed_troops path = true →
     ∃ lws, length lws ≤ length (rows path) - 1
       ∧ (draw_path max_surv ls path).1 = concat (imap (segment_ops ls path) lws)
       ∧ ((draw_path max_surv ls path).2 = Ok tt →
          length lws = length (rows path) - 1)).
Proof using toupper_full_nonempty toupper_full_A.
  intros HX. split; [|split].
  - intros Hg.
    exists ((λ kg, (kg.1, path_of kg.2)) <$> groupby troops).
    assert (Hkeys : ((λ kg, (kg.1, path_of kg.2)) <$> groupby troops).*1
                    = (groupby troops).*1).
    { rewrite <- list_fmap_compose. by apply list_fmap_ext. }
    rewrite Hkeys. split; [|split; [|split]].
    + unfold draw_troops. rewrite Hg, for_each_fmap. apply for_each_ext.
      intros [[g d] gdf] Hin. cbn [compose fst snd].
      rewrite sort_by_X_path, bind_lift_Ok, (groupby_columns _ _ _ Hin).
      unfold direction_linestyle. by rewrite str_upper_startswith_A_spec.
    + apply groupby_keys_NoDup.
    + apply elem_of_groupby_keys.
    + apply Forall_fmap, Forall_forall. intros [[g d] gdf] Hin. cbn [compose fst snd].
      assert (Hk : (g, d) ∈ (groupby troops).*1).
      { apply list_elem_of_fmap. by exists ((g, d), gdf). }
      apply elem_of_groupby_keys in Hk as (Hgn & Hdn & _).
      apply groupby_elem in Hin as ->.
      assert (Hf : List.filter (in_group (g, d)) (rows troops)
                   = filter (has_key g d) (rows troops)).
      { apply filter_bool. intros r _. by apply in_group_spec. }
      rewrite Hf. split; [apply path_of_perm|]. split.
      * intros Hx. apply (Sorted_x_le troops); [by apply HX| |by apply path_of_sorted].
        intros r Hr. rewrite path_of_perm in Hr. cbn [rows] in Hr.
        by apply list_elem_of_filter in Hr as [_ Hr].
      * intros Hx. unfold path_of. cbn [columns rows]. by rewrite bool_decide_eq_false_2.
  - intros Hg. exists (path_of troops). split; [|split; [|split]].
    + unfold draw_troops. by rewrite Hg, sort_by_X_path, bind_lift_Ok.
    + apply path_of_perm.
    + intros Hx. apply (Sorted_x_le troops); [by apply HX| |by apply path_of_sorted].
      intros r Hr. by rewrite path_of_perm in Hr.
    + intros Hx. unfold path_of. by rewrite bool_decide_eq_false_2.
  - intros ls path. apply draw_path_trace.
Qed.

End RouteOnReals.

(** * The theorems on the sample tables *)

Section OnSamples.
Local Open Scope R_scope.


Lemma linewidth_range_and_monotone_sample :
  (∀ s, 0 <= s <= 400000 →
     ∃ v, linewidth (Fin s) (Fin 400000) = Ok (Fin v)
          ∧ v = 1 / 2 + 23 / 2 * sqrt (s / 400000)
          ∧ 1 / 2 <= v <= 12)
  ∧ (∀ s s', 0 <= s → s <= s' →
       ∃ v v', linewidth (Fin s) (Fin 400000) = Ok (Fin v)
               ∧ linewidth (Fin s') (Fin 400000) = Ok (Fin v')
               ∧ v <= v').
Proof. apply (linewidth_range_and_monotone 400000). lra. Defined.

Lemma temperature_mapping_sample :
  y_to_temp (Fin (-30)) (Fin 0) (Fin 50) (Fin 2)
    (temp_to_y (Fin (-30)) (Fin 0) (Fin 50) (Fin 2) (Fin (-9)))
  = Fin (-9).
Proof.
  refine (proj2 (temperature_mapping_affine_invertible (-30) 0 50 2 _) _ (-9)); lra.
Defined.

Lemma real_temp_column :
  getitem real_temp "temp" = Ok [CNum (Fin 0); CNum (Fin (-30))].
Proof. reflexivity. Qed.

Lemma real_temp_min : series_min real_temp "temp" = Ok (Fin (-30)).
Proof.
  unfold series_min. rewrite real_temp_column. simpl. unfold nan_min. simpl.
  destruct (Rlt_dec (-30) 0); [done|lra].
Qed.

Lemma real_temp_max : series_max real_temp "temp" = Ok (Fin 0).
Proof.
  unfold series_max. rewrite real_temp_column. simpl. unfold nan_max. simpl.
  destruct (Rlt_dec 0 (-30)); [lra|done].
Qed.

Lemma temperature_extremes_sample :
  (∀ t, feqb t (Fin 0) = true →
     temp_to_y (Fin (-30)) (Fin 0) (Fin 50) y_span t = fadd (Fin 50) y_span)
  ∧ (∀ t, feqb t (Fin (-30)) = true →
     temp_to_y (Fin (-30)) (Fin 0) (Fin 50) y_span t = Fin 50).
Proof.
  apply (temperature_extremes real_temp (Fin (-30)) (Fin 0) (Fin 50)
           real_temp_min real_temp_max).
  simpl. destruct (Req_dec_T (-30) 0); [lra|done].
Defined.

Lemma real_temp_constant_readings (r : gmap string (cell real64)) :
  r ∈ rows real_temp_constant → as_number (cell_at r "temp") = Ok (Fin 0).
Proof.
  intros Hr. apply list_elem_of_In in Hr. simpl in Hr.
  destruct Hr as [<-|[<-|[]]]; reflexivity.
Qed.

Lemma constant_temperature_sample :
  (draw_temperature real_temp_constant (Fin 54)).2 = Raise ZeroDivisionError.
Proof.
  destruct (constant_temperature_divides_by_zero real_temp_constant 0 (Fin 54)
              eq_refl ltac:(done) real_temp_constant_readings)
    as (_ & _ & _ & _ & _ & ->).
  reflexivity.
Defined.

End OnSamples.

(** The upper-case mapping of the samples has the two properties of the
    Unicode mapping that the line style rests on. *)
Lemma toupper_latin_nonempty (c : N) : toupper_latin c ≠ [].
Proof. unfold toupper_latin. by repeat case_bool_decide. Qed.

Lemma toupper_latin_A (c : N) :
  head (toupper_latin c) = Some 65%N ↔ c ∈ [65; 97; 7834]%N.
Proof.
  unfold toupper_latin. rewrite !elem_of_cons, elem_of_nil.
  repeat case_bool_decide; cbn;
    (split; [intros H'; try injection H' as H'|intros H'; f_equal]); lia.
Qed.

Lemma real_troops_numeric_X : numeric_col real_troops "X".
Proof.
  intros r Hr. apply list_elem_of_In in Hr. simpl in Hr.
  destruct Hr as [<-|[<-|[]]]; by eexists.
Qed.

(** The sample advance is one solid path. *)
Lemma route_grouping_and_styles_sample :
  ∃ paths : list ((cell real64 * cell real64) * list (gmap string (cell real64))),
    draw_troops (unicode:=latin_case_mapping) (Fin 400000) real_troops
    = for_each paths (λ '((g, d), path),
        draw_path (Fin 400000) (if begins_with_A d then Solid else Dashed)
          (mkDF (columns real_troops) path))
    ∧ NoDup paths.*1
    ∧ (CNum (Fin 1), CStr "A") ∈ paths.*1.
Proof.
  destruct (proj1 (route_grouping_and_styles (unicode:=latin_case_mapping)
                     toupper_latin_nonempty toupper_latin_A
                     (Fin 400000) real_troops (λ _, real_troops_numeric_X)) eq_refl)
    as (paths & Hdraw & Hnodup & Hkeys & _).
  exists paths. split; [done|]. split; [done|]. apply Hkeys.
  split; [done|]. split; [done|].
  exists (troop_row (Fin 1) (Fin 30) (Fin 55) (Fin 400000) "A" (Fin 1)).
  split; [by left|]. split; reflexivity.
Defined.

(** The run without a [survivors] column. *)
Lemma missing_survivors_sample :
  main (unicode:=latin_case_mapping)
    (files troops_without_survivors sample_temp sample_cities)
  = ([], Raise (ValueError "Troops CSV must include columns: ['lat', 'long', 'survivors']")).
Proof.
  apply (missing_survivors_fails_before_drawing _
           troops_without_survivors sample_temp sample_cities);
    try reflexivity.
  apply (bool_decide_eq_false_1 _). reflexivity.
Defined.

Lemma zero_max_survivors_sample :
  linewidth 0%float 0%float = Raise ZeroDivisionError.
Proof.
  refine (proj1 (zero_max_survivors_raises 0%float _) 0%float).
  vm_compute. reflexivity.
Defined.


(** The same counts in a table of numbers only: its rows are float64, the sum
    is a float and the linewidth is 12. *)
Lemma float_rows_do_not_wrap :
  draw_troops (unicode:=latin_case_mapping) 5000000000000000000%float troops_huge_numbers
  = ([SetPropCycle;
      Plot [CNum 30%float; CNum 31%float] [CNum 55%float; CNum 54%float]
           12%float Solid None None], Ok tt).
Proof. vm_compute. done. Qed.

(** C4 fails on the code: with the same temperature at every reading the run
    ends in a division by zero. *)
Lemma constant_temperature_run :
  series_min temp_constant "temp" = Ok 0%float
  ∧ series_max temp_constant "temp" = Ok 0%float
  ∧ label_y 0%float 0%float 54%float y_span 0%float = Raise ZeroDivisionError
  ∧ (main (unicode:=latin_case_mapping)
       (files sample_troops temp_constant sample_cities)).2
    = Raise ZeroDivisionError.
Proof. vm_compute. done. Qed.

(** C9 fails on the code: with every survivor count zero the run stops at the
    first segment with [ZeroDivisionError]; no segment is drawn, with a NaN
    linewidth or any other. *)
Lemma all_zero_survivors_run :
  series_max troops_all_zero "survivors" = Ok 0%float
  ∧ draw_troops (unicode:=latin_case_mapping) 0%float troops_all_zero
    = ([], Raise ZeroDivisionError)
  ∧ main (unicode:=latin_case_mapping) (files troops_all_zero sample_temp sample_cities)
    = ([Subplots; SetPropCycle;
        Plot [] [] 3%float Solid None (Some "Advance (solid)");
        SetPropCycle;
        Plot [] [] 3%float Dashed None (Some "Retreat (dashed)")],
       Raise ZeroDivisionError).
Proof. vm_compute. done. Qed.

(** C6 fails on the code: the direction [a] does not start with [A], and its
    segment is solid. *)
Lemma lower_case_direction_is_solid :
  startswith (code_points "a") [65%N] = false
  ∧ draw_troops (unicode:=latin_case_mapping) 400000%float troops_lower_case
    = ([SetPropCycle;
        Plot [CNum 30%float; CNum 31%float] [CNum 55%float; CNum 54%float]
             12%float Solid None None], Ok tt).
Proof. vm_compute. done. Qed.

(** So is the segment of a direction that begins with [ẚ], whose upper case
    is [Aʾ]. *)
Lemma half_ring_direction_is_solid :
  startswith (code_points "ẚ") [65%N] = false
  ∧ str_upper_startswith_A (unicode:=latin_case_mapping) (CStr (F:=float) "ẚ") = true
  ∧ draw_troops (unicode:=latin_case_mapping) 400000%float troops_half_ring
    = ([SetPropCycle;
        Plot [CNum 30%float; CNum 31%float] [CNum 55%float; CNum 54%float]
             12%float Solid None None], Ok tt).
Proof. vm_compute. done. Qed.

(** The parser at work: text that is a number, and text that is not. *)
Lemma to_numeric_sample :
  (df ← to_numeric survivors_as_text ["survivors"; "days"]; getitem df "survivors")
  = Ok [CNum 400000%float; CNum PrimFloat.nan]
  ∧ (df ← to_numeric survivors_as_text ["survivors"; "days"]; getitem df "direction")
    = Ok [CStr "A"; CStr "R"]
  ∧ (columns <$> to_numeric survivors_as_text ["survivors"; "days"])
    = Ok ["survivors"; "direction"].
Proof. vm_compute. done. Qed.

(** A column of text that holds whole numbers only becomes an int64 column;
    with a fraction in one entry it becomes float64 throughout. *)
Lemma to_numeric_whole_sample :
  pd_to_numeric (F:=float) [CStr "400000"; CStr "300000"] = [CInt 400000; CInt 300000]
  ∧ pd_to_numeric (F:=float) [CStr "400000"; CStr "0.5"; CInt 3]
    = [CNum 400000%float; CNum 0.5%float; CNum 3%float].
Proof. vm_compute. done. Qed.

(** The sample advance in binary64: one solid segment, of linewidth
    11.257... *)
Lemma sample_route_binary64 :
  ∃ lw, draw_troops (unicode:=latin_case_mapping) 400000%float sample_troops
        = ([SetPropCycle;
            Plot [CNum 30%float; CNum 31%float] [CNum 55%float; CNum 54%float]
                 lw Solid None None], Ok tt)
    ∧ PrimFloat.ltb 11.25 lw = true
    ∧ PrimFloat.ltb lw 11.265625 = true.
Proof. eexists. split; [vm_compute; reflexivity|]. vm_compute. done. Qed.

(** The sample temperatures in binary64: the extremes land on the edges of
    the band. *)
Lemma sample_extremes_binary64 :
  temp_to_y (-30)%float 0%float 50%float y_span 0%float = fadd 50%float y_span
  ∧ temp_to_y (-30)%float 0%float 50%float y_span (-30)%float = 50%float.
Proof. vm_compute. done. Qed.

(** * More of the script *)

(** ** [load_csv] *)

Section Loader.
Context {F : Type} {arith : Float64 F}.

Lemma filter_other_names (c : string) (l : list string) :
  c ∉ l → List.filter (λ c', negb (String.eqb c c')) l = l.
Proof.
  induction l as [|x l IH]; intros Hc; [done|].
  apply not_elem_of_cons in Hc as [Hne Hc]. simpl.
  destruct (String.eqb_spec c x) as [->|_]; [done|]. simpl. by rewrite IH.
Qed.

Lemma elem_of_filter_other_names (c x : string) (l : list string) :
  x ∈ List.filter (λ c', negb (String.eqb c c')) l ↔ x ∈ l ∧ x ≠ c.
Proof.
  rewrite !list_elem_of_In, List.filter_In, negb_true_iff.
  destruct (String.eqb_spec c x) as [->|Hne]; split; intros [H1 H2]; split;
    congruence.
Qed.

(** X1.  [load_csv] hands on a failure to read the file; a table that was
    read loses the column [Unnamed: 0] and nothing else: the other columns
    stay in order, there are as many rows and each keeps its other fields;
    a table without that column comes back as it is. *)
Theorem load_csv_drops_index_column
    (read_csv : string → result (DataFrame F)) (path : string) :
  match read_csv path with
  | Raise e => load_csv read_csv path = Raise e
  | Ok df =>
      ∃ df', load_csv read_csv path = Ok df'
        ∧ columns df'
          = List.filter (λ c, negb (String.eqb "Unnamed: 0" c)) (columns df)
        ∧ ("Unnamed: 0" ∉ columns df')
        ∧ (∀ c, c ≠ "Unnamed: 0" → (c ∈ columns df' ↔ c ∈ columns df))
        ∧ length (rows df') = length (rows df)
        ∧ (∀ i r r', rows df !! i = Some r → rows df' !! i = Some r' →
             (r' !! "Unnamed: 0")
             = (if bool_decide ("Unnamed: 0" ∈ columns df)
                then None else r !! "Unnamed: 0")
             ∧ ∀ c, c ≠ "Unnamed: 0" → r' !! c = r !! c)
        ∧ ("Unnamed: 0" ∉ columns df → df' = df)
  end.
Proof.
  unfold load_csv. destruct (read_csv path) as [df|e]; [|done]. run_result.
  case_bool_decide as Hu.
  - unfold drop. rewrite bool_decide_eq_true_2 by done. eexists. split; [done|].
    cbn [columns rows]. split; [done|]. split; [|split; [|split; [|split]]].
    + rewrite elem_of_filter_other_names. by intros [_ ?].
    + intros c Hc. rewrite elem_of_filter_other_names. tauto.
    + by rewrite length_fmap.
    + intros i r r' Hr. rewrite list_lookup_fmap, Hr. intros [= <-]. split.
      * apply lookup_delete_eq.
      * intros c Hc. by apply lookup_delete_ne.
    + done.
  - exists df. split; [done|]. split; [by rewrite filter_other_names|].
    split; [done|]. split; [done|]. split; [done|]. split; [|done].
    intros i r r' Hr Hr'. rewrite Hr in Hr'. by injection Hr' as <-.
Qed.

End Loader.


(** ** More on [to_numeric] *)

Section NormalizerLaws.
Context {F : Type} {arith : Float64 F}.

Lemma column_of_coerced (rs : list (gmap string (cell F))) (present : list string)
    (c : string) :
  c ∈ present →
  column_of c (coerce_row rs present <$> rs)
  = coerce_in (column_of c rs) <$> column_of c rs.
Proof.
  intros Hc. unfold column_of. rewrite <- !list_fmap_compose.
  apply list_fmap_ext. intros i r _. cbn [compose].
  by rewrite cell_at_coerce_row, bool_decide_eq_true_2.
Qed.

(** X2.  Coercing twice is coercing once: on the table [to_numeric] returns,
    [to_numeric] with the same columns changes nothing. *)
Theorem to_numeric_idempotent (df : DataFrame F) (cols : list string) :
  (df' ← to_numeric df cols; to_numeric df' cols) = to_numeric df cols.
Proof.
  rewrite !to_numeric_spec. run_result. rewrite to_numeric_spec. cbn [columns rows].
  do 2 f_equal. rewrite <- list_fmap_compose. apply list_fmap_ext.
  intros i r Hr. cbn [compose]. apply map_eq. intros c.
  unfold present_in. cbn [columns]. fold (present_in df cols).
  rewrite !coerce_row_lookup. case_bool_decide as Hc; [|done].
  f_equal. rewrite column_of_coerced, cell_at_coerce_row, bool_decide_eq_true_2 by done.
  apply coerce_in_twice. apply list_elem_of_fmap. exists r.
  split; [done|]. by eapply list_elem_of_lookup_2.
Qed.

(** X3.  The result of [to_numeric] depends on which columns are listed, not
    on their order nor on how often a name occurs. *)
Theorem to_numeric_same_names (df : DataFrame F) (cols1 cols2 : list string) :
  (∀ c, c ∈ cols1 ↔ c ∈ cols2) →
  to_numeric df cols1 = to_numeric df cols2.
Proof.
  intros Hsame. rewrite !to_numeric_spec. do 2 f_equal.
  apply list_fmap_ext. intros i r _. apply map_eq. intros c.
  rewrite !coerce_row_lookup. apply if_bool_decide_ext.
  rewrite !elem_of_present_in. by rewrite Hsame.
Qed.

Lemma coerced_column_numbers (s : list (cell F)) :
  (∃ zs, coerce_in s <$> s = CInt <$> zs)
  ∨ (∃ xs, coerce_in s <$> s = CNum <$> xs).
Proof.
  rewrite <- pd_to_numeric_coerce_in. unfold pd_to_numeric.
  destruct (mapM as_int64 s) as [zs|]; [left; by eexists|right].
  exists ((λ v, float_of_cell (coerce_cell v)) <$> s). rewrite <- list_fmap_compose.
  apply list_fmap_ext. intros i v _. by destruct v.
Qed.

Lemma mapM_as_number_CInt (zs : list Z) :
  mapM (as_number (F:=F)) (CInt <$> zs) = Ok (fof_int <$> zs).
Proof.
  induction zs as [|z zs IH]; [done|].
  cbn [fmap list_fmap mapM]. rewrite IH. done.
Qed.

(** X4.  After [to_numeric] every listed column that the table has holds
    numbers only, all int64 or all float64, so taking its minimum or maximum
    cannot fail. *)
Theorem to_numeric_columns_are_numbers (df : DataFrame F) (cols : list string) :
  ∃ df', to_numeric df cols = Ok df' ∧
    ∀ c, c ∈ cols → c ∈ columns df →
      ∃ s xs, getitem df' c = Ok s
        ∧ (s = CNum <$> xs ∨ ∃ zs, s = CInt <$> zs ∧ xs = fof_int <$> zs)
        ∧ length xs = length (rows df)
        ∧ series_min df' c = Ok (nan_min xs)
        ∧ series_max df' c = Ok (nan_max xs).
Proof.
  eexists. split; [apply to_numeric_spec|]. intros c Hc Hin.
  assert (Hp : c ∈ present_in df cols) by by apply elem_of_present_in.
  assert (Hget : getitem (mkDF (columns df)
                            (coerce_row (rows df) (present_in df cols) <$> rows df)) c
                 = Ok (coerce_in (column_of c (rows df)) <$> column_of c (rows df))).
  { rewrite getitem_present by done. cbn [rows]. f_equal.
    by apply (column_of_coerced _ _ _ Hp). }
  assert (Hlen : length (column_of c (rows df)) = length (rows df))
    by (unfold column_of; by rewrite length_fmap).
  unfold series_min, series_max. rewrite Hget. run_result.
  destruct (coerced_column_numbers (column_of c (rows df))) as [[zs Hs]|[xs Hs]].
  - exists (CInt <$> zs), (fof_int <$> zs). rewrite Hs, mapM_as_number_CInt.
    split; [done|]. split; [right; by exists zs|].
    split; [|done].
    rewrite <- Hlen, <- (length_fmap (coerce_in (column_of c (rows df)))), Hs.
    by rewrite !length_fmap.
  - exists (CNum <$> xs), xs. rewrite Hs, mapM_as_number_CNum.
    split; [done|]. split; [by left|].
    split; [|done].
    rewrite <- Hlen, <- (length_fmap (coerce_in (column_of c (rows df)))), Hs.
    by rewrite !length_fmap.
Qed.

End NormalizerLaws.

(** ** The tables [main] works on *)

(** A name that a list of names written out does not hold. *)
Ltac not_listed := apply (bool_decide_eq_false_1 _); reflexivity.
Ltac listed := apply (bool_decide_eq_true_1 _); reflexivity.

Section Tables.
Context {F : Type} {arith : Float64 F} {unicode : CaseMapping}.

Lemma load_csv_columns (read_csv : string → result (DataFrame F)) path df :
  read_csv path = Ok df →
  ∃ df', load_csv read_csv path = Ok df'
    ∧ ∀ c, c ≠ "Unnamed: 0" → (c ∈ columns df' ↔ c ∈ columns df).
Proof.
  intros Hr. unfold load_csv. rewrite Hr. run_result.
  case_bool_decide as Hu; [|by exists df].
  unfold drop. rewrite bool_decide_eq_true_2 by done.
  eexists. split; [done|]. cbn [columns]. intros c Hc.
  rewrite elem_of_filter_other_names. tauto.
Qed.

Lemma coerced_rows_numeric (df : DataFrame F) (cols : list string)
    (rs : list (gmap string (cell F))) (c : string) :
  rs ≡ₚ coerce_row (rows df) (present_in df cols) <$> rows df →
  c ∈ cols → c ∈ columns df →
  numeric_col (mkDF (columns df) rs) c.
Proof.
  intros Hperm Hc Hin r Hr. cbn [rows] in Hr. rewrite Hperm in Hr.
  apply list_elem_of_fmap in Hr as (r0 & -> & Hr0).
  rewrite cell_at_coerce_row, bool_decide_eq_true_2 by by apply elem_of_present_in.
  apply coerce_in_number. apply list_elem_of_fmap. by exists r0.
Qed.

(** What loading, coercing and sorting leave [main] with: the columns of the
    files but for [Unnamed: 0], and numbers in every coerced column. *)
Lemma load_tables_spec (read_csv : string → result (DataFrame F)) troops temp cities :
  read_csv troops_path = Ok troops →
  read_csv temp_path = Ok temp →
  read_csv cities_path = Ok cities →
  ∃ troops' temp' cities',
    load_tables read_csv = Ok (troops', temp', cities')
    ∧ (∀ c, c ≠ "Unnamed: 0" → (c ∈ columns troops' ↔ c ∈ columns troops))
    ∧ (∀ c, c ≠ "Unnamed: 0" → (c ∈ columns temp' ↔ c ∈ columns temp))
    ∧ (∀ c, c ≠ "Unnamed: 0" → (c ∈ columns cities' ↔ c ∈ columns cities))
    ∧ (∀ c, c ∈ ["X"; "long"; "lat"; "survivors"; "group"] →
         c ∈ columns troops' → numeric_col troops' c)
    ∧ (∀ c, c ∈ ["X"; "long"; "temp"; "days"] →
         c ∈ columns temp' → numeric_col temp' c)
    ∧ (∀ c, c ∈ ["X"; "long"; "lat"] →
         c ∈ columns cities' → numeric_col cities' c).
Proof.
  intros H1 H2 H3. unfold load_tables.
  destruct (load_csv_columns _ _ _ H1) as (t1 & -> & Ht1).
  destruct (load_csv_columns _ _ _ H2) as (t2 & -> & Ht2).
  destruct (load_csv_columns _ _ _ H3) as (t3 & -> & Ht3).
  run_result. rewrite !to_numeric_spec. run_result.
  match goal with |- context [sort_troops ?d] =>
    destruct (sort_troops_ok d) as (r1 & -> & Hp1) end.
  run_result.
  match goal with |- context [sort_by_X ?d] =>
    destruct (sort_by_X_ok d) as (r2 & -> & Hp2) end.
  run_result.
  match goal with |- context [sort_by_X ?d] =>
    destruct (sort_by_X_ok d) as (r3 & -> & Hp3) end.
  run_result. cbn [columns rows] in *.
  eexists _, _, _. split; [done|]. cbn [columns].
  split; [done|]. split; [done|]. split; [done|].
  split; [|split]; intros c Hc Hin; by eapply coerced_rows_numeric.
Qed.

Lemma needed_not_index (needed : list string) (df df' : DataFrame F) :
  "Unnamed: 0" ∉ needed →
  (∀ c, c ≠ "Unnamed: 0" → (c ∈ columns df' ↔ c ∈ columns df)) →
  issubset needed df' = issubset needed df.
Proof.
  intros Hn Hcols. unfold issubset.
  induction needed as [|c l IH]; [done|].
  apply not_elem_of_cons in Hn as [Hc Hl]. cbn [forallb].
  rewrite IH by done. f_equal. by apply bool_decide_ext, Hcols.
Qed.

(** X5.  The column checks, in the order of the script and all before the
    first drawing operation: a table set whose troops lack a needed column
    stops with the troops message; else one whose temperatures lack one, with
    the temperature message; else one whose cities lack one, with the cities
    message. *)
Theorem column_checks_fail_before_drawing
    (read_csv : string → result (DataFrame F)) (troops temp cities : DataFrame F) :
  read_csv troops_path = Ok troops →
  read_csv temp_path = Ok temp →
  read_csv cities_path = Ok cities →
  (issubset needed_troops troops = false →
   main read_csv
   = ([], Raise (ValueError "Troops CSV must include columns: ['lat', 'long', 'survivors']")))
  ∧ (issubset needed_troops troops = true → issubset needed_temp temp = false →
     main read_csv
     = ([], Raise (ValueError "Temp CSV must include columns: ['long', 'temp']")))
  ∧ (issubset needed_troops troops = true → issubset needed_temp temp = true →
     issubset needed_cities cities = false →
     main read_csv
     = ([], Raise (ValueError "Cities CSV must include columns: ['city', 'lat', 'long']"))).
Proof.
  intros H1 H2 H3. unfold main.
  destruct (load_tables_spec _ _ _ _ H1 H2 H3)
    as (t1 & t2 & t3 & -> & Hc1 & Hc2 & Hc3 & _).
  rewrite bind_lift_Ok. unfold basic_checks.
  rewrite (needed_not_index needed_troops troops t1) by (done || not_listed).
  rewrite (needed_not_index needed_temp temp t2) by (done || not_listed).
  rewrite (needed_not_index needed_cities cities t3) by (done || not_listed).
  repeat split.
  - by intros ->.
  - by intros -> ->.
  - by intros -> -> ->.
Qed.

(** X6.  Sorting the troops never fails and neither adds nor loses a row or a
    column.  The rows come out in the lexicographic order of group, direction
    and [X] when the table has all three, in the order of [X] when it has
    [X] but not all three, and as they were when it has no [X]. *)
Theorem sort_troops_sorted (troops : DataFrame F) :
  ∃ rs, sort_troops troops = Ok (mkDF (columns troops) rs)
    ∧ rs ≡ₚ rows troops
    ∧ (issubset ["group"; "direction"; "X"] troops = true →
       Sorted (le_of (rows_leb ["group"; "direction"; "X"])) rs)
    ∧ (issubset ["group"; "direction"; "X"] troops = false →
       "X" ∈ columns troops → Sorted (le_of (rows_leb ["X"])) rs)
    ∧ ("X" ∉ columns troops → rs = rows troops).
Proof.
  unfold sort_troops. destruct (issubset _ troops) eqn:E.
  - rewrite sort_values_ok by by apply issubset_spec.
    eexists. split; [done|]. split; [apply merge_sort_Permutation|].
    split; [|split]; [intros _; apply (Sorted_merge_sort _)|done|].
    intros HX. exfalso. apply HX. apply (proj1 (issubset_spec _ _) E). listed.
  - case_bool_decide as HX.
    + rewrite sort_values_ok by by intros c ->%list_elem_of_singleton.
      eexists. split; [done|]. split; [apply merge_sort_Permutation|].
      split; [done|]. split; [intros _ _; apply (Sorted_merge_sort _)|done].
    + destruct troops as [cs rs]. exists rs. by repeat split.
Qed.

End Tables.

(** ** When the figure is written *)

Section Saving.
Context {F : Type} {arith : Float64 F} {unicode : CaseMapping}.

Lemma no_save_lift {A} (m : result A) : no_save (lift (F:=F) m).
Proof. unfold no_save, lift. cbn. apply not_elem_of_nil. Qed.

Lemma no_save_emit (op : draw_op F) : op ≠ SaveFig out_file → no_save (emit op).
Proof.
  intros Hop. unfold no_save, emit. cbn. intros H%list_elem_of_singleton. congruence.
Qed.

Lemma no_save_bind {A B} (m : drawing F A) (f : A → drawing F B) :
  no_save m → (∀ a, no_save (f a)) → no_save (m ≫= f).
Proof.
  unfold no_save. destruct m as [t [a|e]]; intros Hm Hf; [|done].
  rewrite bind_done. unfold after. cbn [fst snd] in *.
  rewrite elem_of_app. specialize (Hf a). tauto.
Qed.

Lemma no_save_for_each {A} (l : list A) (body : A → drawing F unit) :
  (∀ x, no_save (body x)) → no_save (for_each l body).
Proof.
  intros Hb. induction l as [|x l IH].
  - unfold no_save. cbn. apply not_elem_of_nil.
  - rewrite for_each_cons. by apply no_save_bind.
Qed.

Lemma saves_last_bind {A} (m : drawing F A) (f : A → drawing F unit) :
  no_save m → (∀ a, saves_last (f a)) → saves_last (m ≫= f).
Proof.
  unfold no_save. destruct m as [t [a|e]]; intros Hm Hf; [|done].
  rewrite bind_done. unfold after, saves_last. cbn [fst snd] in *.
  specialize (Hf a). unfold saves_last in Hf.
  destruct (f a) as [t' [[]|e]]; cbn [fst snd] in *.
  - destruct Hf as (t0 & -> & Ht0). exists (t ++ t0).
    split; [by rewrite app_assoc|]. rewrite elem_of_app. tauto.
  - rewrite elem_of_app. tauto.
Qed.

(** Solves [no_save] of a computation written with binds, lifts and emits. *)
Ltac no_save_steps :=
  repeat first
    [ apply no_save_lift
    | apply no_save_emit; discriminate
    | apply no_save_for_each; intros
    | apply no_save_bind; [|intros]
    | match goal with |- no_save (let '(_, _) := ?p in _) => destruct p end ].

Lemma no_save_draw_troops (max_surv : F) (troops : DataFrame F) :
  no_save (draw_troops max_surv troops).
Proof.
  unfold draw_troops. destruct (issubset _ troops).
  - apply no_save_for_each. intros [[g d] gdf].
    unfold draw_path, draw_segment. no_save_steps.
  - unfold draw_path, draw_segment. no_save_steps.
Qed.

Lemma no_save_draw_cities (cities : DataFrame F) : no_save (draw_cities cities).
Proof. unfold draw_cities. no_save_steps. Qed.

Lemma no_save_draw_temperature (temp : DataFrame F) (min_lat : F) :
  no_save (draw_temperature temp min_lat).
Proof. unfold draw_temperature, draw_temp_label. no_save_steps. Qed.

Lemma saves_last_final_formatting (troops : DataFrame F) (min_lat max_lat : F) :
  saves_last (final_formatting troops min_lat max_lat).
Proof.
  unfold final_formatting.
  do 4 (apply saves_last_bind; [apply no_save_emit; discriminate|intros _]).
  do 2 (apply saves_last_bind; [apply no_save_lift|intros ?]).
  apply saves_last_bind; [unfold set_xlim; no_save_steps|intros _].
  apply saves_last_bind; [unfold set_ylim; no_save_steps|intros _].
  do 2 (apply saves_last_bind; [apply no_save_emit; discriminate|intros _]).
  unfold saves_last. cbn. exists []. split; [done|apply not_elem_of_nil].
Qed.

(** X7.  Whatever the files hold, [main] writes the figure only in a run
    that ends without an exception, and then exactly once: [savefig] is the
    last operation before the closing message.  A run that raises has not
    written it. *)
Theorem figure_saved_only_on_success (read_csv : string → result (DataFrame F)) :
  match (main read_csv).2 with
  | Ok _ =>
      ∃ t, (main read_csv).1
           = t ++ [SaveFig out_file;
                   PrintOut "Saved: minard_combined_visualization_final.png"]
        ∧ SaveFig out_file ∉ t
  | Raise _ => SaveFig out_file ∉ (main read_csv).1
  end.
Proof.
  change (saves_last (main read_csv)). unfold main.
  apply saves_last_bind; [apply no_save_lift|intros [[troops temp] cities]].
  do 4 (apply saves_last_bind; [apply no_save_lift|intros ?]).
  do 5 (apply saves_last_bind; [apply no_save_emit; discriminate|intros _]).
  apply saves_last_bind; [apply no_save_draw_troops|intros _].
  apply saves_last_bind; [apply no_save_draw_cities|intros _].
  apply saves_last_bind; [apply no_save_draw_temperature|intros _].
  apply saves_last_final_formatting.
Qed.

End Saving.


(** ** What the cities and the temperatures add to the figure *)

Section Labels.
Context {F : Type} {arith : Float64 F}.

Lemma for_each_all_ok {A} (l : list A) (body : A → drawing F unit) (op : A → draw_op F) :
  (∀ x, x ∈ l → body x = ([op x], Ok tt)) →
  for_each l body = (op <$> l, Ok tt).
Proof.
  induction l as [|x l IH]; intros Hb; [done|].
  rewrite for_each_cons, Hb, bind_done, IH by (by left || (intros; apply Hb; by right)).
  done.
Qed.

Lemma for_each_first_failure {A} (l1 l2 : list A) (x : A) (body : A → drawing F unit)
    (op : A → draw_op F) (e : exn) :
  (∀ y, y ∈ l1 → body y = ([op y], Ok tt)) →
  body x = ([], Raise e) →
  for_each (l1 ++ x :: l2) body = (op <$> l1, Raise e).
Proof.
  intros Hb Hx. induction l1 as [|y l1 IH]; cbn [app].
  - by rewrite for_each_cons, Hx.
  - rewrite for_each_cons, Hb, bind_done, IH by (by left || (intros; apply Hb; by right)).
    done.
Qed.

(** [float] of a number a row is handed out with. *)
Lemma numeric_py_float (df : DataFrame F) (c : string) (r : gmap string (cell F)) :
  numeric_col df c → r ∈ rows df →
  py_float (cell_at (handed df r) c) = Ok (number_at r c).
Proof.
  intros Hnum Hr. destruct (Hnum r Hr) as [x Hx]. unfold handed, number_at.
  rewrite row_series_float, (as_number_py_float _ x) by done.
  by rewrite (as_number_float_of_cell _ x).
Qed.

Lemma numeric_reading (temp : DataFrame F) (r : gmap string (cell F)) :
  numeric_col temp "temp" → r ∈ rows temp →
  ∃ x, as_number (reading temp r) = Ok x.
Proof.
  intros Hnum Hr. destruct (Hnum r Hr) as [x Hx]. exists x. unfold reading, handed.
  by rewrite row_series_number.
Qed.

Lemma numeric_column (df : DataFrame F) (c : string) :
  numeric_col df c →
  mapM as_number ((λ r, cell_at r c) <$> rows df) = Ok ((λ r, number_at r c) <$> rows df).
Proof.
  intros Hnum. rewrite mapM_as_number_floats.
  - by rewrite <- list_fmap_compose.
  - intros v (r & -> & Hr)%list_elem_of_fmap. by apply Hnum.
Qed.

Lemma series_min_numeric (df : DataFrame F) (c : string) :
  c ∈ columns df → numeric_col df c → ∃ x, series_min df c = Ok x.
Proof.
  intros Hc Hnum. unfold series_min.
  rewrite getitem_present by done. run_result. rewrite numeric_column by done. by eexists.
Qed.

Lemma series_max_numeric (df : DataFrame F) (c : string) :
  c ∈ columns df → numeric_col df c → ∃ x, series_max df c = Ok x.
Proof.
  intros Hc Hnum. unfold series_max.
  rewrite getitem_present by done. run_result. rewrite numeric_column by done. by eexists.
Qed.

(** X10.  With the needed columns and numbers for the coordinates, the
    cities never fail: one marker layer, then one label per city in table
    order, each 0.08 to the right of and 0.05 above its city. *)
Theorem draw_cities_trace (cities : DataFrame F) :
  issubset needed_cities cities = true →
  numeric_col cities "long" → numeric_col cities "lat" →
  draw_cities cities
  = (SetPropCycle
     :: Scatter ((λ r, cell_at r "long") <$> rows cities)
                ((λ r, cell_at r "lat") <$> rows cities) "Cities"
     :: (city_label cities <$> rows cities), Ok tt).
Proof.
  intros Hsub Hlong Hlat.
  assert (Hc : ∀ c, c ∈ needed_cities → c ∈ columns cities) by by apply issubset_spec.
  unfold draw_cities. rewrite bind_emit.
  rewrite !getitem_present, !bind_lift_Ok, bind_emit by (apply Hc; listed).
  unfold iterrows. rewrite for_each_fmap.
  rewrite (for_each_all_ok _ _ (city_label cities)); [by rewrite !after_pair|].
  intros r Hr. cbn [compose].
  rewrite !item_row_series by (apply Hc; listed).
  fold (handed cities r). rewrite bind_lift_Ok.
  rewrite (numeric_py_float cities "long"), bind_lift_Ok by done.
  rewrite bind_lift_Ok, (numeric_py_float cities "lat"), !bind_lift_Ok by done.
  done.
Qed.

(** Line 139 when the range is not zero: the height of line 131. *)
Lemma label_y_nonzero (temp_min temp_max y_base span t : F) :
  feqb (fsub temp_max temp_min) (fdec 0 0) = false →
  label_y temp_min temp_max y_base span t
  = Ok (temp_to_y temp_min temp_max y_base span t).
Proof. intros Hz. unfold label_y, py_truediv, temp_to_y. by rewrite Hz. Qed.

(** [int] of a number fails on a float that is NaN or infinite, and on
    nothing else. *)
Lemma py_int_check_number (v : cell F) (x : F) :
  as_number v = Ok x →
  match py_int_check v with
  | Ok _ => ∀ t, v = CNum t → finite t
  | Raise e =>
      ∃ t, v = CNum t
        ∧ ((e = ValueError "cannot convert float NaN to integer" ∧ fis_nan t = true)
           ∨ (e = OverflowError "cannot convert float infinity to integer"
              ∧ fis_nan t = false ∧ fis_inf t = true))
  end.
Proof.
  destruct v as [t|z|s]; cbn; [|done..]. intros _.
  destruct (fis_nan t) eqn:En; [exists t; split; [done|by left]|].
  destruct (fis_inf t) eqn:Ei; [exists t; split; [done|by right]|].
  by intros t' [= <-].
Qed.

Lemma py_int_check_finite (v : cell F) (x : F) :
  as_number v = Ok x → (∀ t, v = CNum t → finite t) → py_int_check v = Ok tt.
Proof.
  destruct v as [t|z|s]; cbn; [|done..]. intros _ Hfin.
  destruct (Hfin t eq_refl) as [-> ->]. done.
Qed.

(** One label: the run stops at the division of line 139 or at the [int] of
    line 141, or the label is drawn. *)
Lemma draw_temp_label_run (temp : DataFrame F) (temp_min temp_max y_base : F)
    (r : gmap string (cell F)) :
  issubset needed_temp temp = true →
  numeric_col temp "long" → numeric_col temp "temp" →
  r ∈ rows temp →
  draw_temp_label temp temp_min temp_max y_base (row_series (columns temp) r)
  = match label_y temp_min temp_max y_base y_span (number_at r "temp") with
    | Raise e => ([], Raise e)
    | Ok yt =>
        match py_int_check (reading temp r) with
        | Raise e => ([], Raise e)
        | Ok _ =>
            ([Text (number_at r "long") (fsub yt (fdec 10 2))
                (TempLabel (reading temp r)
                   (if bool_decide ("date" ∈ columns temp)
                    then Some (cell_at (handed temp r) "date") else None))], Ok tt)
        end
    end.
Proof.
  intros Hsub Hlong Htemp Hr.
  assert (Hc : ∀ c, c ∈ needed_temp → c ∈ columns temp) by by apply issubset_spec.
  unfold draw_temp_label, reading.
  rewrite (item_row_series _ _ "temp"), (item_row_series _ _ "long") by (apply Hc; listed).
  fold (handed temp r). rewrite bind_lift_Ok.
  rewrite (numeric_py_float temp "temp"), bind_lift_Ok by done.
  destruct (label_y _ _ _ _ _) as [yt|e]; [|done]. rewrite bind_lift_Ok.
  assert (Hd : (if bool_decide ("date" ∈ columns temp)
                then Some <$> item (row_series (columns temp) r) "date"
                else Ok None)
               = Ok (if bool_decide ("date" ∈ columns temp)
                     then Some (cell_at (handed temp r) "date") else None)).
  { case_bool_decide as Hdate; [|done]. by rewrite item_row_series. }
  rewrite Hd, !bind_lift_Ok.
  rewrite (numeric_py_float temp "long"), !bind_lift_Ok by done.
  destruct (py_int_check _) as [[]|e]; [by rewrite bind_lift_Ok|done].
Qed.

Lemma draw_temperature_head (temp : DataFrame F) (min_lat temp_min temp_max : F) :
  issubset needed_temp temp = true →
  numeric_col temp "temp" →
  series_min temp "temp" = Ok temp_min →
  series_max temp "temp" = Ok temp_max →
  draw_temperature temp min_lat
  = after [SetPropCycle; temp_curve temp temp_min temp_max (fsub min_lat (fdec 23 1))]
      (for_each (rows temp)
         (λ r, draw_temp_label temp temp_min temp_max (fsub min_lat (fdec 23 1))
                 (row_series (columns temp) r))).
Proof.
  intros Hsub Htemp Hlo Hhi.
  assert (Hc : ∀ c, c ∈ needed_temp → c ∈ columns temp) by by apply issubset_spec.
  unfold draw_temperature. rewrite Hlo, Hhi, !bind_lift_Ok.
  rewrite (getitem_present temp "temp"), bind_lift_Ok by (apply Hc; listed).
  rewrite numeric_column, bind_lift_Ok, bind_emit by done.
  rewrite getitem_present, bind_lift_Ok, bind_emit by (apply Hc; listed).
  unfold iterrows. rewrite for_each_fmap.
  unfold after. cbn [fst snd app]. unfold temp_curve, temp_point.
  by rewrite <- !list_fmap_compose.
Qed.

(** X11.  With a non-zero range and no reading that is a missing or an
    infinite float the temperatures never fail: the curve, then one label per
    reading in table order, each at the longitude of its reading and 0.10
    under its point of the curve. *)
Theorem draw_temperature_trace (temp : DataFrame F) (min_lat temp_min temp_max : F) :
  issubset needed_temp temp = true →
  numeric_col temp "long" → numeric_col temp "temp" →
  series_min temp "temp" = Ok temp_min →
  series_max temp "temp" = Ok temp_max →
  feqb (fsub temp_max temp_min) (fdec 0 0) = false →
  (∀ r, r ∈ rows temp → finite_reading temp r) →
  draw_temperature temp min_lat
  = (SetPropCycle
     :: temp_curve temp temp_min temp_max (fsub min_lat (fdec 23 1))
     :: (temp_label temp temp_min temp_max (fsub min_lat (fdec 23 1)) <$> rows temp),
     Ok tt).
Proof.
  intros Hsub Hlong Htemp Hlo Hhi Hz Hfin.
  rewrite (draw_temperature_head _ _ _ _ Hsub Htemp Hlo Hhi).
  rewrite (for_each_all_ok _ _
             (temp_label temp temp_min temp_max (fsub min_lat (fdec 23 1)))).
  - by rewrite after_pair.
  - intros r Hr. rewrite draw_temp_label_run, label_y_nonzero by done.
    destruct (numeric_reading temp r Htemp Hr) as [x Hx].
    by rewrite (py_int_check_finite _ x Hx (Hfin r Hr)).
Qed.

(** X12.  The first reading that is a missing or an infinite float stops the
    run at its label: the curve is drawn and the readings before it are
    labelled; then [int] of the reading raises [ValueError] when it is NaN,
    although [to_numeric] let the value through, and [OverflowError] when it
    is an infinity. *)
Theorem missing_reading_fails_at_label (temp : DataFrame F)
    (min_lat temp_min temp_max : F)
    (before after_ : list (gmap string (cell F))) (r : gmap string (cell F)) (t : F) :
  issubset needed_temp temp = true →
  numeric_col temp "long" → numeric_col temp "temp" →
  series_min temp "temp" = Ok temp_min →
  series_max temp "temp" = Ok temp_max →
  feqb (fsub temp_max temp_min) (fdec 0 0) = false →
  rows temp = before ++ r :: after_ →
  (∀ r', r' ∈ before → finite_reading temp r') →
  reading temp r = CNum t →
  fis_nan t = true ∨ fis_inf t = true →
  draw_temperature temp min_lat
  = (SetPropCycle
     :: temp_curve temp temp_min temp_max (fsub min_lat (fdec 23 1))
     :: (temp_label temp temp_min temp_max (fsub min_lat (fdec 23 1)) <$> before),
     Raise (if fis_nan t then ValueError "cannot convert float NaN to integer"
            else OverflowError "cannot convert float infinity to integer")).
Proof.
  intros Hsub Hlong Htemp Hlo Hhi Hz Hrows Hbefore Ht Hbad.
  rewrite (draw_temperature_head _ _ _ _ Hsub Htemp Hlo Hhi).
  rewrite Hrows.
  rewrite (for_each_first_failure _ _ _ _
             (temp_label temp temp_min temp_max (fsub min_lat (fdec 23 1)))
             (if fis_nan t then ValueError "cannot convert float NaN to integer"
              else OverflowError "cannot convert float infinity to integer")).
  - by rewrite after_pair.
  - intros r' Hr'.
    assert (Hin : r' ∈ rows temp) by (rewrite Hrows; set_solver).
    rewrite draw_temp_label_run, label_y_nonzero by done.
    destruct (numeric_reading temp r' Htemp Hin) as [x Hx].
    by rewrite (py_int_check_finite _ x Hx (Hbefore r' Hr')).
  - assert (Hin : r ∈ rows temp) by (rewrite Hrows; set_solver).
    rewrite draw_temp_label_run, label_y_nonzero by done.
    rewrite Ht. cbn [py_int_check].
    destruct (fis_nan t); [done|]. destruct Hbad as [Hn|Hi]; [done|by rewrite Hi].
Qed.

End Labels.

(** ** The exceptions of a run *)

Section Exceptions.
Context {F : Type} {arith : Float64 F} {unicode : CaseMapping}.

Lemma only_raises_weaken {A} (P Q : exn → Prop) (m : drawing F A) :
  (∀ e, P e → Q e) → only_raises P m → only_raises Q m.
Proof. intros HPQ Hm e He. by apply HPQ, Hm. Qed.

Lemma only_raises_lift_Ok {A} (P : exn → Prop) (a : A) : only_raises P (lift (F:=F) (Ok a)).
Proof. by intros e. Qed.

Lemma only_raises_emit (P : exn → Prop) (op : draw_op F) : only_raises P (emit op).
Proof. by intros e. Qed.

Lemma only_raises_bind {A B} (P : exn → Prop) (m : drawing F A) (f : A → drawing F B) :
  only_raises P m → (∀ a, m.2 = Ok a → only_raises P (f a)) → only_raises P (m ≫= f).
Proof.
  destruct m as [t [a|e]]; intros Hm Hf e'.
  - rewrite bind_done. unfold after. cbn [snd]. by apply (Hf a).
  - rewrite bind_raised. cbn [snd]. intros [= <-]. by apply (Hm e).
Qed.

Lemma only_raises_for_each {A} (P : exn → Prop) (l : list A) (body : A → drawing F unit) :
  (∀ x, x ∈ l → only_raises P (body x)) → only_raises P (for_each l body).
Proof.
  induction l as [|x l IH]; intros Hb; [by intros e|].
  rewrite for_each_cons. apply only_raises_bind.
  - apply Hb. by left.
  - intros _ _. apply IH. intros y Hy. apply Hb. by right.
Qed.

Lemma only_raises_after {A} (P : exn → Prop) (t : list (draw_op F)) (m : drawing F A) :
  only_raises P m → only_raises P (after t m).
Proof. intros Hm e. unfold after. cbn [snd]. apply Hm. Qed.

Lemma linewidth_raises (surv max_surv : F) (e : exn) :
  linewidth surv max_surv = Raise e →
  e = ZeroDivisionError ∧ feqb max_surv (fdec 0 0) = true.
Proof.
  unfold linewidth, py_truediv.
  destruct (feqb max_surv (fdec 0 0)); run_result; [|done]. by intros [= <-].
Qed.

Lemma draw_segment_raises (max_surv : F) (ls : linestyle) (path : DataFrame F) (i : nat) :
  issubset needed_troops path = true →
  numeric_col path "survivors" →
  i + 1 < length (rows path) →
  only_raises (zero_maximum max_surv) (draw_segment max_surv ls path i).
Proof.
  intros Hsub Hnum Hi.
  destruct (lookup_lt_is_Some_2 (rows path) i) as [r1 H1]; [lia|].
  destruct (lookup_lt_is_Some_2 (rows path) (i + 1)) as [r2 H2]; [done|].
  destruct (Hnum r1) as [s1 Hs1]; [by eapply list_elem_of_lookup_2|].
  destruct (Hnum r2) as [s2 Hs2]; [by eapply list_elem_of_lookup_2|].
  rewrite (draw_segment_run _ _ _ _ _ _ Hsub H1 H2).
  destruct (pair_survivors_rows (columns path) r1 r2 s1 s2) as [surv ->]; [|done..|].
  { apply (proj1 (issubset_spec _ _) Hsub). listed. }
  destruct (linewidth _ max_surv) as [lw|e'] eqn:E; intros e; cbn [snd]; [done|].
  intros [= <-]. by eapply linewidth_raises.
Qed.

Lemma draw_path_raises (max_surv : F) (ls : linestyle) (path : DataFrame F) :
  issubset needed_troops path = true →
  numeric_col path "survivors" →
  only_raises (zero_maximum max_surv) (draw_path max_surv ls path).
Proof.
  intros Hsub Hnum. unfold draw_path. apply only_raises_for_each.
  intros i Hi. apply elem_of_seq in Hi. apply draw_segment_raises; [done..|lia].
Qed.

Lemma route_plan_paths (troops : DataFrame F) (ls : linestyle) (path : DataFrame F) :
  (ls, path) ∈ route_plan troops →
  columns path = columns troops ∧ ∀ r, r ∈ rows path → r ∈ rows troops.
Proof.
  unfold route_plan. destruct (issubset _ troops).
  - intros ([[g d] gdf] & [= -> ->] & Hin)%list_elem_of_fmap.
    apply groupby_elem in Hin as ->. cbn [columns rows]. split; [done|].
    intros r Hr. rewrite path_of_perm in Hr. cbn [rows] in Hr.
    apply list_elem_of_In, List.filter_In in Hr as [Hr _]. by apply list_elem_of_In.
  - intros [= -> ->]%list_elem_of_singleton. cbn [columns rows]. split; [done|].
    intros r Hr. by rewrite path_of_perm in Hr.
Qed.

Lemma draw_troops_raises (max_surv : F) (troops : DataFrame F) :
  issubset needed_troops troops = true →
  numeric_col troops "survivors" →
  only_raises (zero_maximum max_surv) (draw_troops max_surv troops).
Proof.
  intros Hsub Hnum. rewrite draw_troops_plan. apply only_raises_for_each.
  intros [ls path] Hin. apply route_plan_paths in Hin as [Hcols Hrows].
  apply draw_path_raises.
  - unfold issubset in *. by rewrite Hcols.
  - intros r Hr. by apply Hnum, Hrows.
Qed.

Lemma issubset_in (needed : list string) (df : DataFrame F) (c : string) :
  issubset needed df = true → c ∈ needed → c ∈ columns df.
Proof. intros Hsub. by apply issubset_spec. Qed.

Lemma draw_cities_raises (cities : DataFrame F) :
  issubset needed_cities cities = true →
  numeric_col cities "long" → numeric_col cities "lat" →
  only_raises (λ _, False) (draw_cities cities).
Proof.
  intros Hsub Hlong Hlat.
  assert (Hc : ∀ c, c ∈ needed_cities → c ∈ columns cities) by by apply issubset_spec.
  unfold draw_cities. rewrite bind_emit.
  rewrite !getitem_present, !bind_lift_Ok, bind_emit by (apply Hc; listed).
  do 2 apply only_raises_after. unfold iterrows. rewrite for_each_fmap.
  apply only_raises_for_each. intros r Hr. cbn [compose].
  rewrite !item_row_series by (apply Hc; listed).
  fold (handed cities r). rewrite bind_lift_Ok.
  rewrite (numeric_py_float cities "long"), bind_lift_Ok by done.
  rewrite bind_lift_Ok, (numeric_py_float cities "lat"), !bind_lift_Ok by done.
  apply only_raises_emit.
Qed.

Lemma label_y_raises (temp_min temp_max y_base span t : F) (e : exn) :
  label_y temp_min temp_max y_base span t = Raise e →
  e = ZeroDivisionError ∧ feqb (fsub temp_max temp_min) (fdec 0 0) = true.
Proof.
  unfold label_y, py_truediv.
  destruct (feqb (fsub temp_max temp_min) (fdec 0 0)); run_result; [|done].
  by intros [= <-].
Qed.

Lemma draw_temp_label_raises (temp : DataFrame F) (temp_min temp_max y_base : F)
    (r : gmap string (cell F)) :
  issubset needed_temp temp = true →
  numeric_col temp "long" → numeric_col temp "temp" →
  r ∈ rows temp →
  only_raises (label_failure temp temp_min temp_max)
    (draw_temp_label temp temp_min temp_max y_base (row_series (columns temp) r)).
Proof.
  intros Hsub Hlong Htemp Hr. rewrite draw_temp_label_run by done.
  destruct (label_y _ _ _ _ _) as [yt|e] eqn:Ey.
  - destruct (numeric_reading temp r Htemp Hr) as [x Hx].
    pose proof (py_int_check_number _ x Hx) as Hint.
    destruct (py_int_check (reading temp r)) as [[]|e]; [by intros e|].
    destruct Hint as (t & Ht & [[-> Hn]|(-> & _ & Hi)]); intros e' [= <-].
    + right; left. split; [done|]. by exists r, t.
    + right; right. split; [done|]. by exists r, t.
  - intros e' [= <-]. left. by eapply label_y_raises.
Qed.

Lemma draw_temperature_raises (temp : DataFrame F) (min_lat : F) :
  issubset needed_temp temp = true →
  numeric_col temp "long" → numeric_col temp "temp" →
  ∃ temp_min temp_max,
    series_min temp "temp" = Ok temp_min
    ∧ series_max temp "temp" = Ok temp_max
    ∧ only_raises (label_failure temp temp_min temp_max) (draw_temperature temp min_lat).
Proof.
  intros Hsub Hlong Htemp.
  assert (Hct : "temp" ∈ columns temp) by (apply (issubset_in _ _ _ Hsub); listed).
  destruct (series_min_numeric temp "temp" Hct Htemp) as [lo Hlo].
  destruct (series_max_numeric temp "temp" Hct Htemp) as [hi Hhi].
  exists lo, hi. split; [done|]. split; [done|].
  rewrite (draw_temperature_head _ _ _ _ Hsub Htemp Hlo Hhi).
  apply only_raises_after, only_raises_for_each. intros r Hr.
  by apply draw_temp_label_raises.
Qed.

Lemma check_limit_finite (v : F) : finite v → check_limit v = Ok tt.
Proof. intros [Hn Hi]. unfold check_limit. by rewrite Hn, Hi. Qed.

Lemma check_limit_raises (v : F) (e : exn) :
  check_limit v = Raise e →
  e = ValueError "Axis limits cannot be NaN or Inf" ∧ ¬ finite v.
Proof.
  unfold check_limit, finite.
  destruct (fis_nan v), (fis_inf v); cbn; intros [= <-]; split; try done;
    intros [? ?]; done.
Qed.

Lemma set_lim_raises (op : F → F → draw_op F) (lo hi : F) (e : exn) :
  (lift (check_limit lo);; lift (check_limit hi);; emit (op lo hi) : drawing F unit).2
  = Raise e →
  e = ValueError "Axis limits cannot be NaN or Inf" ∧ ¬ (finite lo ∧ finite hi).
Proof.
  destruct (check_limit lo) as [[]|e1] eqn:E1.
  - rewrite bind_lift_Ok. destruct (check_limit hi) as [[]|e2] eqn:E2.
    + by rewrite bind_lift_Ok.
    + rewrite bind_lift_Raise. cbn [snd]. intros [= <-].
      apply check_limit_raises in E2 as [-> Hn]. split; [done|]. tauto.
  - rewrite bind_lift_Raise. cbn [snd]. intros [= <-].
    apply check_limit_raises in E1 as [-> Hn]. split; [done|]. tauto.
Qed.

Lemma x_limits_numeric (troops : DataFrame F) :
  "long" ∈ columns troops → numeric_col troops "long" →
  ∃ lo hi, series_min troops "long" = Ok lo ∧ series_max troops "long" = Ok hi
    ∧ x_limits troops = Ok (fsub lo (fdec 5 1), fadd hi (fdec 5 1)).
Proof.
  intros Hc Hnum.
  destruct (series_min_numeric troops "long" Hc Hnum) as [lo Hlo].
  destruct (series_max_numeric troops "long" Hc Hnum) as [hi Hhi].
  exists lo, hi. unfold x_limits. by rewrite Hlo, Hhi.
Qed.

Lemma final_formatting_raises (troops : DataFrame F) (min_lat max_lat : F) :
  "long" ∈ columns troops → numeric_col troops "long" →
  only_raises (limit_failure troops min_lat max_lat)
    (final_formatting troops min_lat max_lat).
Proof.
  intros Hc Hnum. unfold final_formatting.
  destruct (x_limits_numeric troops Hc Hnum) as (lo & hi & Hlo & Hhi & Hx).
  rewrite Hlo, Hhi.
  do 4 (apply only_raises_bind; [apply only_raises_emit|intros _ _]).
  rewrite !bind_lift_Ok.
  apply only_raises_bind.
  { intros e He. apply set_lim_raises in He as [-> Hn]. split; [done|].
    exists (fsub lo (fdec 5 1)), (fadd hi (fdec 5 1)). split; [done|]. tauto. }
  intros _ _. apply only_raises_bind.
  { intros e He. apply set_lim_raises in He as [-> Hn]. split; [done|].
    exists (fsub lo (fdec 5 1)), (fadd hi (fdec 5 1)). split; [done|].
    unfold y_limits. cbn [fst snd]. tauto. }
  intros _ _.
  do 3 (apply only_raises_bind; [apply only_raises_emit|intros _ _]).
  apply only_raises_emit.
Qed.

(** The last part of the script never fails when the four limits are
    finite. *)
Lemma final_formatting_ok (troops : DataFrame F) (min_lat max_lat xlo xhi : F) :
  x_limits troops = Ok (xlo, xhi) →
  finite xlo → finite xhi →
  finite (y_limits min_lat max_lat).1 → finite (y_limits min_lat max_lat).2 →
  (final_formatting troops min_lat max_lat).2 = Ok tt.
Proof.
  unfold x_limits, y_limits, final_formatting, set_xlim, set_ylim. cbn [fst snd].
  destruct (series_min troops "long") as [lo|]; [|done]. run_result.
  destruct (series_max troops "long") as [hi|]; [|done]. run_result.
  intros [= <- <-] H1 H2 H3 H4.
  rewrite !bind_emit. unfold after. cbn [fst snd]. rewrite !bind_lift_Ok.
  rewrite !check_limit_finite by done. reflexivity.
Qed.

(** The route never fails when the maximum is not zero. *)
Lemma draw_troops_ok (max_surv : F) (troops : DataFrame F) :
  issubset needed_troops troops = true →
  numeric_col troops "survivors" →
  feqb max_surv (fdec 0 0) = false →
  (draw_troops max_surv troops).2 = Ok tt.
Proof.
  intros Hsub Hnum Hz. pose proof (draw_troops_raises max_surv troops Hsub Hnum) as H.
  destruct (draw_troops max_surv troops) as [t [[]|e]]; [done|].
  destruct (H e eq_refl) as [_ Hz']. congruence.
Qed.

Lemma main_failures
    (read_csv : string → result (DataFrame F)) (troops temp cities : DataFrame F) :
  read_csv troops_path = Ok troops →
  read_csv temp_path = Ok temp →
  read_csv cities_path = Ok cities →
  ∃ troops' temp' cities',
    load_tables read_csv = Ok (troops', temp', cities')
    ∧ only_raises (run_failure troops' temp' cities') (main read_csv).
Proof.
  intros H1 H2 H3. unfold main.
  destruct (load_tables_spec _ _ _ _ H1 H2 H3)
    as (t1 & t2 & t3 & -> & _ & _ & _ & Hn1 & Hn2 & Hn3).
  exists t1, t2, t3. split; [done|].
  rewrite bind_lift_Ok.
  destruct (basic_checks t1 t2 t3) as [[]|e0] eqn:Echecks;
    [|rewrite bind_lift_Raise; intros e [= <-]; by left].
  assert (E : issubset needed_troops t1 = true ∧ issubset needed_temp t2 = true
              ∧ issubset needed_cities t3 = true).
  { unfold basic_checks in Echecks.
    destruct (issubset needed_troops t1), (issubset needed_temp t2),
      (issubset needed_cities t3); done. }
  destruct E as (E1 & E2 & E3).
  rewrite bind_lift_Ok.
  assert (Hs : numeric_col t1 "survivors")
    by (apply Hn1; [listed|apply (issubset_in _ _ _ E1); listed]).
  assert (Hlat : numeric_col t1 "lat")
    by (apply Hn1; [listed|apply (issubset_in _ _ _ E1); listed]).
  assert (Hlong : numeric_col t1 "long")
    by (apply Hn1; [listed|apply (issubset_in _ _ _ E1); listed]).
  destruct (series_max_numeric t1 "survivors") as [max_surv Hmax];
    [apply (issubset_in _ _ _ E1); listed|done|].
  destruct (series_min_numeric t1 "lat") as [min_lat Hminlat];
    [apply (issubset_in _ _ _ E1); listed|done|].
  destruct (series_max_numeric t1 "lat") as [max_lat Hmaxlat];
    [apply (issubset_in _ _ _ E1); listed|done|].
  rewrite Hmax, Hminlat, Hmaxlat, !bind_lift_Ok.
  do 5 (apply only_raises_bind; [apply only_raises_emit|intros _ _]).
  apply only_raises_bind; [|intros _ _].
  { eapply only_raises_weaken; [|by apply draw_troops_raises].
    intros e He. right; left. by exists max_surv. }
  apply only_raises_bind; [|intros _ _].
  { eapply only_raises_weaken; [|apply draw_cities_raises; [done|..]].
    - by intros e [].
    - apply Hn3; [listed|apply (issubset_in _ _ _ E3); listed].
    - apply Hn3; [listed|apply (issubset_in _ _ _ E3); listed]. }
  apply only_raises_bind; [|intros _ _].
  { destruct (draw_temperature_raises t2 min_lat E2) as (lo & hi & Hlo & Hhi & Hr).
    - apply Hn2; [listed|apply (issubset_in _ _ _ E2); listed].
    - apply Hn2; [listed|apply (issubset_in _ _ _ E2); listed].
    - eapply only_raises_weaken; [|exact Hr].
      intros e He. right; right; left. by exists lo, hi. }
  eapply only_raises_weaken; [|apply final_formatting_raises].
  - intros e He. do 3 right. by exists min_lat, max_lat.
  - apply (issubset_in _ _ _ E1); listed.
  - done.
Qed.

(** X8.  Once the three files are read, a run raises nothing but the three
    column-check errors, [ZeroDivisionError], the [ValueError] and the
    [OverflowError] of [int] on a missing and on an infinite temperature, and
    the [ValueError] of an axis limit that is NaN or infinite: no lookup
    fails with [KeyError] or [IndexError] and no arithmetic with [TypeError],
    because the checks guard the columns and [to_numeric] has made them
    numbers.  (Drawing, layout and the writing of the file by matplotlib are
    taken to succeed.) *)
Theorem main_raises_only
    (read_csv : string → result (DataFrame F)) (troops temp cities : DataFrame F) :
  read_csv troops_path = Ok troops →
  read_csv temp_path = Ok temp →
  read_csv cities_path = Ok cities →
  match (main read_csv).2 with
  | Ok _ => True
  | Raise e => main_exn e
  end.
Proof.
  intros H1 H2 H3.
  destruct (main_failures _ _ _ _ H1 H2 H3) as (t1 & t2 & t3 & _ & Hf).
  destruct (main read_csv).2 as [[]|e] eqn:He; [done|].
  destruct (Hf e He)
    as [Hc|[(m & _ & -> & _)
           |[(lo & hi & _ & _ & [[-> _]|[[-> _]|[-> _]]])
            |(lo & hi & _ & _ & -> & _)]]].
  - unfold basic_checks in Hc.
    destruct (issubset needed_troops t1); cbn [negb] in Hc; [|injection Hc as <-; by left].
    destruct (issubset needed_temp t2); cbn [negb] in Hc;
      [|injection Hc as <-; right; by left].
    destruct (issubset needed_cities t3); cbn [negb] in Hc; [done|].
    injection Hc as <-. right; right; by left.
  - do 3 right. by left.
  - do 3 right. by left.
  - do 3 right. right; by left.
  - do 3 right. right; right; by left.
  - do 3 right. by do 3 right.
Qed.

(** X9.  A run ends well whenever the prepared tables pass the column
    checks, the largest survivor count is not zero, the temperatures are not
    all equal, none of them is a missing or an infinite float, and the four
    axis limits are finite.  (Drawing, layout and the writing of the file by
    matplotlib are taken to succeed.) *)
Theorem main_succeeds
    (read_csv : string → result (DataFrame F)) (troops temp cities : DataFrame F)
    (max_surv temp_min temp_max xlo xhi min_lat max_lat : F) :
  load_tables read_csv = Ok (troops, temp, cities) →
  basic_checks troops temp cities = Ok tt →
  series_max troops "survivors" = Ok max_surv →
  feqb max_surv (fdec 0 0) = false →
  series_min temp "temp" = Ok temp_min →
  series_max temp "temp" = Ok temp_max →
  feqb (fsub temp_max temp_min) (fdec 0 0) = false →
  (∀ r, r ∈ rows temp → finite_reading temp r) →
  x_limits troops = Ok (xlo, xhi) →
  series_min troops "lat" = Ok min_lat →
  series_max troops "lat" = Ok max_lat →
  finite xlo → finite xhi →
  finite (y_limits min_lat max_lat).1 → finite (y_limits min_lat max_lat).2 →
  (main read_csv).2 = Ok tt.
Proof.
  intros Hload Hchecks Hmax Hz Hlo Hhi Hrange Hfin Hx Hminlat Hmaxlat Hf1 Hf2 Hf3 Hf4.
  assert (Hreads : ∃ d1 d2 d3, read_csv troops_path = Ok d1
            ∧ read_csv temp_path = Ok d2 ∧ read_csv cities_path = Ok d3).
  { unfold load_tables, load_csv in Hload.
    destruct (read_csv troops_path) as [d1|]; [|done].
    destruct (read_csv temp_path) as [d2|].
    - destruct (read_csv cities_path) as [d3|]; [by eexists _, _, _|].
      revert Hload. run_result. by repeat (case_bool_decide || destruct (drop _ _)).
    - revert Hload. run_result. by repeat (case_bool_decide || destruct (drop _ _)). }
  destruct Hreads as (d1 & d2 & d3 & H1 & H2 & H3).
  destruct (main_failures _ _ _ _ H1 H2 H3) as (t1 & t2 & t3 & Hl & Hf).
  rewrite Hload in Hl. injection Hl as <- <- <-.
  destruct (main read_csv) as [t [[]|e]]; [done|]. exfalso.
  destruct (Hf e eq_refl)
    as [Hc|[(m & Hm & _ & Hm0)
           |[(lo & hi & Hlo' & Hhi' & Hlab)
            |(lo & hi & Hlo' & Hhi' & _ & xl & xh & Hx' & Hn)]]].
  - congruence.
  - rewrite Hmax in Hm. injection Hm as <-. congruence.
  - rewrite Hlo in Hlo'. rewrite Hhi in Hhi'. injection Hlo' as <-. injection Hhi' as <-.
    destruct Hlab as [[_ Hr]|[[_ (r & x & Hr & Hx' & Hn)]|[_ (r & x & Hr & Hx' & Hi)]]].
    + congruence.
    + destruct (Hfin r Hr x Hx'). congruence.
    + destruct (Hfin r Hr x Hx'). congruence.
  - rewrite Hminlat in Hlo'. rewrite Hmaxlat in Hhi'.
    injection Hlo' as <-. injection Hhi' as <-.
    rewrite Hx in Hx'. injection Hx' as <- <-. tauto.
Qed.

End Exceptions.

(** ** Where the temperature curve lies, on reals *)

Section Band.
Local Open Scope R_scope.

Lemma nan_min_lower (l : list real64) (t : R) :
  Fin t ∈ l → ∃ a, nan_min l = Fin a ∧ a <= t.
Proof.
  unfold nan_min. intros Hin.
  assert (H : ∀ acc : real64, Fin t ∈ l ∨ (∃ c, acc = Fin c ∧ c <= t) →
            ∃ a, foldl (λ acc x : real64,
                          if fis_nan x then acc
                          else if fis_nan acc then x
                          else if fltb x acc then x else acc) acc l = Fin a ∧ a <= t).
  { clear Hin. induction l as [|x l IH]; intros acc [Hin|(c & -> & Hc)].
    - by apply elem_of_nil in Hin.
    - exists c. by cbn.
    - cbn [foldl]. apply elem_of_cons in Hin as [<-|Hin]; [|apply IH; by left].
      apply IH. right. destruct acc as [c|]; simpl.
      + destruct (Rlt_dec t c); eexists; split; try done; lra.
      + eexists. split; [done|lra].
    - cbn [foldl]. apply IH. right. destruct x as [x|]; simpl.
      + destruct (Rlt_dec x c); eexists; split; try done; lra.
      + by exists c. }
  apply H. by left.
Qed.

Lemma nan_max_upper (l : list real64) (t : R) :
  Fin t ∈ l → ∃ b, nan_max l = Fin b ∧ t <= b.
Proof.
  unfold nan_max. intros Hin.
  assert (H : ∀ acc : real64, Fin t ∈ l ∨ (∃ c, acc = Fin c ∧ t <= c) →
            ∃ b, foldl (λ acc x : real64,
                          if fis_nan x then acc
                          else if fis_nan acc then x
                          else if fltb acc x then x else acc) acc l = Fin b ∧ t <= b).
  { clear Hin. induction l as [|x l IH]; intros acc [Hin|(c & -> & Hc)].
    - by apply elem_of_nil in Hin.
    - exists c. by cbn.
    - cbn [foldl]. apply elem_of_cons in Hin as [<-|Hin]; [|apply IH; by left].
      apply IH. right. destruct acc as [c|]; simpl.
      + destruct (Rlt_dec c t); eexists; split; try done; lra.
      + eexists. split; [done|lra].
    - cbn [foldl]. apply IH. right. destruct x as [x|]; simpl.
      + destruct (Rlt_dec c x); eexists; split; try done; lra.
      + by exists c. }
  apply H. by left.
Qed.

Lemma mapM_as_number_inv {F} `{Float64 F} (s : list (cell F)) (xs : list F) :
  mapM as_number s = Ok xs → xs = float_of_cell <$> s.
Proof.
  revert xs. induction s as [|v s IH]; intros xs; cbn [mapM].
  - by intros [= <-].
  - destruct (as_number v) as [x|] eqn:Ev; run_result; [|done].
    destruct (mapM as_number s) as [ys|]; run_result; [|done].
    intros [= <-]. cbn. by rewrite (as_number_float_of_cell v x), (IH ys).
Qed.

Lemma series_reading (temp : DataFrame real64) (c : string) (lo hi : real64)
    (r : gmap string (cell real64)) (t : R) :
  series_min temp c = Ok lo → series_max temp c = Ok hi →
  r ∈ rows temp → number_at r c = Fin t →
  ∃ a b, lo = Fin a ∧ hi = Fin b ∧ a <= t <= b.
Proof.
  unfold series_min, series_max, getitem. intros Hlo Hhi Hr Ht.
  destruct (bool_decide (c ∈ columns temp)); [|done]. revert Hlo Hhi. run_result.
  destruct (mapM as_number _) as [xs|] eqn:E; run_result; [|done].
  intros [= <-] [= <-]. apply mapM_as_number_inv in E.
  assert (Hin : Fin t ∈ xs).
  { rewrite E, <- Ht. unfold number_at. rewrite <- list_fmap_compose.
    apply list_elem_of_fmap. by exists r. }
  destruct (nan_min_lower xs t Hin) as (a & -> & Ha).
  destruct (nan_max_upper xs t Hin) as (b & -> & Hb).
  by exists a, b.
Qed.

(** Where a reading is shown: in the band of 1.4 above [min_lat - 2.3]. *)
Lemma temp_point_band (temp : DataFrame real64) (min_lat : R) (temp_min temp_max : real64)
    (r : gmap string (cell real64)) (t : R) :
  series_min temp "temp" = Ok temp_min →
  series_max temp "temp" = Ok temp_max →
  feqb temp_min temp_max = false →
  r ∈ rows temp → number_at r "temp" = Fin t →
  ∃ y, temp_to_y temp_min temp_max (fsub (Fin min_lat) (fdec 23 1)) y_span (Fin t) = Fin y
    ∧ feqb (fsub temp_max temp_min) (fdec 0 0) = false
    ∧ min_lat - 23 / 10 <= y <= min_lat - 9 / 10.
Proof.
  intros Hlo Hhi Hne Hr Ht.
  destruct (series_reading _ _ _ _ _ _ Hlo Hhi Hr Ht) as (a & b & -> & -> & Ha & Hb).
  simpl in Hne. destruct (Req_dec_T a b) as [|Hab]; [done|].
  rewrite !real64_dec_value. cbn [fsub real64_Float64 real64_lift2].
  unfold y_span. rewrite real64_dec_value. rewrite temp_to_y_real by done.
  eexists. split; [done|]. split.
  { simpl. destruct (Req_dec_T _ _) as [E|]; [exfalso; lra|done]. }
  assert (Hq : 0 <= (t - a) / (b - a) <= 1).
  { assert (Hpos : 0 < b - a) by lra.
    pose proof (Rinv_0_lt_compat _ Hpos) as Hi. unfold Rdiv. split.
    - apply Rmult_le_pos; lra.
    - apply (Rmult_le_reg_r (b - a)); [done|].
      rewrite Rmult_assoc, Rinv_l by lra. lra. }
  set (q := (t - a) / (b - a)) in *. simpl. split; nra.
Qed.

Lemma for_each_ops {F A} (l : list A) (body : A → drawing F unit) (P : draw_op F → Prop) :
  (∀ x op, x ∈ l → op ∈ (body x).1 → P op) →
  ∀ op, op ∈ (for_each l body).1 → P op.
Proof.
  induction l as [|x l IH]; intros Hb op; [by intros ?%elem_of_nil|].
  rewrite for_each_cons. pose proof (Hb x) as Hx.
  destruct (body x) as [t [[]|e]].
  - rewrite bind_done. unfold after. cbn [fst]. intros [Hop|Hop]%elem_of_app.
    + apply (Hx op); [by left|done].
    + apply IH; [|done]. intros y op' Hy. apply Hb. by right.
  - rewrite bind_raised. cbn [fst]. intros Hop. apply (Hx op); [by left|done].
Qed.

(** The lower limit of the y axis in a run that gets to the end. *)
Lemma final_formatting_ylim {F} `{Float64 F} (troops : DataFrame F) (min_lat max_lat : F) :
  (final_formatting troops min_lat max_lat).2 = Ok tt →
  SetYLim (y_limits min_lat max_lat).1 (y_limits min_lat max_lat).2
    ∈ (final_formatting troops min_lat max_lat).1.
Proof.
  unfold final_formatting, set_xlim, set_ylim, y_limits. cbn [fst snd].
  rewrite !bind_emit. unfold after. cbn [fst snd].
  destruct (series_min troops "long") as [lo|]; [|done]. rewrite bind_lift_Ok.
  destruct (series_max troops "long") as [hi|]; [|done]. rewrite bind_lift_Ok.
  destruct (check_limit (fsub lo (fdec 5 1))) as [[]|]; [|done]. rewrite bind_lift_Ok.
  destruct (check_limit (fadd hi (fdec 5 1))) as [[]|]; [|done]. rewrite bind_lift_Ok.
  rewrite bind_emit.
  destruct (check_limit (fsub (fsub min_lat (fdec 23 1)) (fdec 5 1))) as [[]|]; [|done].
  rewrite bind_lift_Ok.
  destruct (check_limit (fadd max_lat (fdec 8 1))) as [[]|]; [|done]. rewrite bind_lift_Ok.
  rewrite !bind_emit. unfold after, emit. cbn [fst snd app]. intros _. set_solver.
Qed.

(** X13.  The temperature curve lies under the map.  When the readings are
    not all equal, every reading is drawn between [min_lat - 2.3] and
    [min_lat - 0.9] (a missing one at NaN), so below the lowest troop
    latitude, and every label that is drawn, 0.10 lower, lies above the lower
    limit [min_lat - 2.8] that line 153 gives the y axis, in a run that gets
    that far. *)
Theorem temperature_band_below_map (troops temp : DataFrame real64) (min_lat : R)
    (max_lat temp_min temp_max : real64) :
  issubset needed_temp temp = true →
  numeric_col temp "long" → numeric_col temp "temp" →
  series_min temp "temp" = Ok temp_min →
  series_max temp "temp" = Ok temp_max →
  feqb temp_min temp_max = false →
  (final_formatting troops (Fin min_lat) max_lat).2 = Ok tt →
  ∃ lo hi,
    SetYLim (Fin lo) hi ∈ (final_formatting troops (Fin min_lat) max_lat).1
    ∧ lo = min_lat - 28 / 10
    ∧ (∀ xs ys lw ls mk lb,
         Plot xs ys lw ls mk lb ∈ (draw_temperature temp (Fin min_lat)).1 →
         ∀ v, v ∈ ys →
           v = CNum NaN
           ∨ ∃ y, v = CNum (Fin y) ∧ min_lat - 23 / 10 <= y <= min_lat - 9 / 10)
    ∧ (∀ x y s, Text x y s ∈ (draw_temperature temp (Fin min_lat)).1 →
         ∃ yl, y = Fin yl ∧ lo < yl <= min_lat - 1).
Proof.
  intros Hsub Hlong Htemp Hlo Hhi Hne Hfin.
  exists (min_lat - 28 / 10), (fadd max_lat (fdec 8 1)). split; [|split; [done|]].
  { pose proof (final_formatting_ylim troops (Fin min_lat) max_lat Hfin) as H.
    unfold y_limits in H. cbn [fst snd] in H.
    replace (Fin (min_lat - 28 / 10))
      with (fsub (fsub (Fin min_lat) (fdec 23 1)) (fdec 5 1)); [done|].
    rewrite !real64_dec_value. cbn. f_equal. lra. }
  rewrite (draw_temperature_head _ _ _ _ Hsub Htemp Hlo Hhi). unfold after. cbn [fst].
  assert (Hlabels : ∀ op,
            op ∈ (for_each (rows temp)
                    (λ r, draw_temp_label temp temp_min temp_max
                            (fsub (Fin min_lat) (fdec 23 1))
                            (row_series (columns temp) r))).1 →
            ∃ x y s, op = Text x y s
              ∧ ∃ yl, y = Fin yl ∧ min_lat - 28 / 10 < yl <= min_lat - 1).
  { apply for_each_ops. intros r op Hr.
    rewrite draw_temp_label_run by done.
    destruct (numeric_reading temp r Htemp Hr) as [x Hx].
    pose proof (py_int_check_number _ x Hx) as Hint.
    destruct (label_y _ _ _ _ _) as [yt|e] eqn:Ey; [|by intros ?%elem_of_nil].
    destruct (py_int_check (reading temp r)) as [[]|e]; [|by intros ?%elem_of_nil].
    intros ->%list_elem_of_singleton. eexists _, _, _. split; [done|].
    assert (Ht : ∃ t, number_at r "temp" = Fin t).
    { destruct (Htemp r Hr) as [x' Hx']. unfold number_at.
      unfold reading, handed in Hx, Hint.
      destruct (row_series_cell (columns temp) r "temp") as [E|E]; rewrite E in *.
      - destruct (cell_at r "temp") as [[t|]|z|s]; cbn in *; try done; try by eexists.
        by destruct (Hint NaN eq_refl).
      - destruct (cell_at r "temp") as [[t|]|z|s]; cbn in *; try done; try by eexists.
        by destruct (Hint NaN eq_refl). }
    destruct Ht as [t Ht]. rewrite Ht in Ey.
    destruct (temp_point_band temp min_lat _ _ r t Hlo Hhi Hne Hr Ht) as (y & Hy & Hz & Hb).
    rewrite label_y_nonzero, Hy in Ey by done. injection Ey as <-.
    rewrite real64_dec_value. cbn. eexists. split; [done|]. lra. }
  split.
  - intros xs ys lw ls mk lb [Hop|Hop]%elem_of_app.
    + apply elem_of_cons in Hop as [Hop|Hop]; [done|].
      apply list_elem_of_singleton in Hop. unfold temp_curve in Hop.
      assert (Hys : ys = (λ r, CNum (temp_point temp_min temp_max
                                      (fsub (Fin min_lat) (fdec 23 1)) r)) <$> rows temp)
        by congruence.
      clear Hop. subst ys. intros v (r & -> & Hr)%list_elem_of_fmap.
      unfold temp_point. destruct (number_at r "temp") as [t|] eqn:Ht.
      * right. destruct (temp_point_band temp min_lat _ _ r t Hlo Hhi Hne Hr Ht)
          as (y & -> & _ & Hb). by exists y.
      * left. unfold temp_to_y. cbn. by destruct temp_min.
    + destruct (Hlabels _ Hop) as (x & y & s & [=] & _).
  - intros x y s [Hop|Hop]%elem_of_app.
    + apply elem_of_cons in Hop as [Hop|Hop]; [done|].
      by apply list_elem_of_singleton in Hop.
    + destruct (Hlabels _ Hop) as (x' & y' & s' & [= -> -> ->] & Hy). done.
Qed.

(** X14.  A missing survivor count does not stop the route: the segment it
    belongs to is drawn all the same, with linewidth NaN, for any maximum
    that is not zero. *)
Theorem missing_survivor_count_draws_nan (gdf : DataFrame real64) (ls : linestyle)
    (i : nat) (r1 r2 : gmap string (cell real64)) (s1 s2 max_surv : real64) :
  issubset needed_troops gdf = true →
  rows gdf !! i = Some r1 →
  rows gdf !! (i + 1)%nat = Some r2 →
  as_number (cell_at r1 "survivors") = Ok s1 →
  as_number (cell_at r2 "survivors") = Ok s2 →
  s1 = NaN ∨ s2 = NaN →
  max_surv ≠ Fin 0 →
  draw_segment max_surv ls gdf i
  = ([SetPropCycle;
      Plot [cell_at (handed gdf r1) "long"; cell_at (handed gdf r2) "long"]
           [cell_at (handed gdf r1) "lat"; cell_at (handed gdf r2) "lat"]
           NaN ls None None], Ok tt).
Proof.
  intros Hsub H1 H2 Hs1 Hs2 Hnan Hmax.
  rewrite (draw_segment_run _ _ _ _ _ _ Hsub H1 H2).
  assert (Hc : "survivors" ∈ columns gdf).
  { apply (proj1 (issubset_spec _ _) Hsub). set_solver. }
  rewrite (pair_survivors_numbers _ _ s1 s2) by (by rewrite ?row_series_number).
  assert (Hsum : pair_sum (cell_at (values (row_series (columns gdf) r1)) "survivors")
                   (cell_at (values (row_series (columns gdf) r2)) "survivors") = NaN).
  { rewrite <- (row_series_number (columns gdf)) in Hs1, Hs2.
    destruct (cell_at (values (row_series (columns gdf) r1)) "survivors") as [x1|z1|t1],
             (cell_at (values (row_series (columns gdf) r2)) "survivors") as [x2|z2|t2];
      cbn in *; try done; simplify_eq; destruct Hnan as [Hn|Hn]; simplify_eq; cbn;
      try done; match goal with |- real64_lift2 _ ?x _ = _ => by destruct x end. }
  rewrite Hsum. unfold linewidth, py_truediv. rewrite real64_zero_literal.
  unfold segment_ops, row_at, handed. rewrite H1, H2. cbn [default].
  destruct max_surv as [m|]; simpl.
  - destruct (Req_dec_T m 0) as [->|_]; [done|]. done.
  - done.
Qed.

End Band.

(** ** The groups of the route, on reals *)

Section Groups.

(** X15.  The groups of the route split the table: their keys are pairwise
    distinct, a row that has a group and a direction lies in the group of its
    key and in no other, and a row that misses one of them lies in no
    group. *)
Theorem groups_split_the_table (troops : DataFrame real64) :
  NoDup (groupby troops).*1
  ∧ ∀ r, r ∈ rows troops →
      match group_key r with
      | Some k =>
          ∃ gdf, (k, gdf) ∈ groupby troops ∧ r ∈ rows gdf
            ∧ ∀ k' gdf', (k', gdf') ∈ groupby troops → r ∈ rows gdf' → k' = k
      | None => ∀ k gdf, (k, gdf) ∈ groupby troops → r ∉ rows gdf
      end.
Proof.
  split; [apply groupby_keys_NoDup|].
  intros r Hr. destruct (group_key r) as [k|] eqn:Ek.
  - exists (mkDF (columns troops) (List.filter (in_group k) (rows troops))).
    split; [|split].
    + unfold groupby. apply list_elem_of_fmap. exists k. split; [done|].
      rewrite merge_sort_Permutation. apply elem_of_uniq; [apply key_eqb_eq|].
      apply list_elem_of_omap. by exists r.
    + cbn [rows]. apply list_elem_of_In, List.filter_In. split.
      * by apply list_elem_of_In.
      * unfold in_group. rewrite Ek. by eapply group_key_refl.
    + intros k' gdf' Hin Hr'. apply groupby_elem in Hin as ->. cbn [rows] in Hr'.
      apply list_elem_of_In, List.filter_In in Hr' as [_ Hg].
      unfold in_group in Hg. rewrite Ek in Hg. by apply key_eqb_eq.
  - intros k gdf Hin Hr'. apply groupby_elem in Hin as ->. cbn [rows] in Hr'.
    apply list_elem_of_In, List.filter_In in Hr' as [_ Hg].
    unfold in_group in Hg. by rewrite Ek in Hg.
Qed.

End Groups.

(** * More theorems on the sample tables *)

Lemma to_numeric_same_names_sample :
  to_numeric survivors_as_text ["survivors"; "days"]
  = to_numeric survivors_as_text ["days"; "survivors"; "days"].
Proof.
  apply to_numeric_same_names. intros c.
  rewrite !elem_of_cons, !elem_of_nil. tauto.
Defined.

(** The cities file given for the temperatures: the second check fails. *)
Lemma column_checks_sample :
  main (unicode:=latin_case_mapping) (files sample_troops sample_cities sample_cities)
  = ([], Raise (ValueError "Temp CSV must include columns: ['long', 'temp']")).
Proof.
  apply (proj1 (proj2 (column_checks_fail_before_drawing
                         (files sample_troops sample_cities sample_cities)
                         sample_troops sample_cities sample_cities
                         eq_refl eq_refl eq_refl))); reflexivity.
Defined.

(** The run on troops that are all gone does raise, and what it raises is
    one of the listed errors. *)
Lemma main_raises_only_sample :
  ∃ e, (main (unicode:=latin_case_mapping)
          (files troops_all_zero sample_temp sample_cities)).2 = Raise e
       ∧ main_exn e.
Proof.
  pose proof (main_raises_only (unicode:=latin_case_mapping)
                (files troops_all_zero sample_temp sample_cities)
                troops_all_zero sample_temp sample_cities eq_refl eq_refl eq_refl) as H.
  destruct (main (files troops_all_zero sample_temp sample_cities)).2 as [u|e] eqn:E.
  - vm_compute in E. discriminate E.
  - exists e. split; [reflexivity|exact H].
Defined.

Lemma sample_numeric (rs : list (gmap string (cell float))) (cs : list string) (c : string) :
  forallb (λ r, negb (is_text (cell_at r c))) rs = true →
  numeric_col (mkDF cs rs) c.
Proof.
  intros Hall r Hr. cbn [rows] in Hr. apply list_elem_of_In in Hr.
  pose proof (proj1 (forallb_forall _ _) Hall r Hr) as H. cbv beta in H.
  destruct (cell_at r c); [by eexists..|done].
Qed.

Lemma sample_temp_readings (r : gmap string (cell float)) :
  r ∈ rows sample_temp → finite_reading sample_temp r.
Proof.
  intros Hr. apply list_elem_of_In in Hr. simpl in Hr.
  destruct Hr as [<-|[<-|[]]]; intros t; vm_compute; by intros [= <-].
Qed.

Lemma main_succeeds_sample :
  (main (unicode:=latin_case_mapping)
     (files sample_troops sample_temp sample_cities)).2 = Ok tt.
Proof.
  apply (main_succeeds (unicode:=latin_case_mapping)
           (files sample_troops sample_temp sample_cities)
           sample_troops sample_temp sample_cities 400000%float (-30)%float 0%float
           29.5%float 31.5%float 54%float 55%float);
    [reflexivity|reflexivity|reflexivity|reflexivity|reflexivity|reflexivity
    |reflexivity|apply sample_temp_readings|reflexivity|reflexivity|reflexivity
    |split; reflexivity..].
Defined.

Lemma draw_cities_trace_sample : (draw_cities sample_cities).2 = Ok tt.
Proof.
  rewrite (draw_cities_trace sample_cities); [reflexivity|reflexivity|..];
    by apply sample_numeric.
Defined.

Lemma draw_temperature_trace_sample :
  (draw_temperature sample_temp 54%float).2 = Ok tt.
Proof.
  rewrite (draw_temperature_trace sample_temp 54%float (-30)%float 0%float);
    [reflexivity|reflexivity|by apply sample_numeric|by apply sample_numeric
    |vm_compute; reflexivity|vm_compute; reflexivity|vm_compute; reflexivity|].
  apply sample_temp_readings.
Defined.

Lemma temp_with_gap_before (r : gmap string (cell float)) :
  r ∈ [temp_row 30%float 0%float "Oct 18"] → finite_reading temp_with_gap r.
Proof.
  intros ->%list_elem_of_singleton. intros t. vm_compute. by intros [= <-].
Qed.

Lemma missing_reading_sample :
  (draw_temperature temp_with_gap 54%float).2
  = Raise (ValueError "cannot convert float NaN to integer").
Proof.
  rewrite (missing_reading_fails_at_label temp_with_gap 54%float (-30)%float 0%float
             [temp_row 30%float 0%float "Oct 18"]
             [temp_row 32%float (-30)%float "Dec 6"]
             (temp_row 31%float PrimFloat.nan "Nov 9") PrimFloat.nan);
    [reflexivity|reflexivity|by apply sample_numeric|by apply sample_numeric
    |vm_compute; reflexivity|vm_compute; reflexivity|vm_compute; reflexivity
    |reflexivity|apply temp_with_gap_before|reflexivity|by left].
Defined.

(** An infinite reading stops the run at its label with [OverflowError]. *)
Lemma infinite_reading_run :
  (draw_temperature temp_with_infinity 54%float).2
  = Raise (OverflowError "cannot convert float infinity to integer")
  ∧ (main (unicode:=latin_case_mapping)
       (files sample_troops temp_with_infinity sample_cities)).2
    = Raise (OverflowError "cannot convert float infinity to integer").
Proof. vm_compute. done. Qed.

(** A troops file without rows has no longitudes: the limits of the x axis
    are NaN and [set_xlim] refuses them, after everything else is drawn and
    before the figure is written. *)
Lemma header_only_troops_run :
  x_limits troops_header_only = Ok (PrimFloat.nan, PrimFloat.nan)
  ∧ (main (unicode:=latin_case_mapping)
       (files troops_header_only sample_temp sample_cities)).2
    = Raise (ValueError "Axis limits cannot be NaN or Inf")
  ∧ Forall (λ op, op ≠ SaveFig out_file)
      (main (unicode:=latin_case_mapping)
         (files troops_header_only sample_temp sample_cities)).1.
Proof.
  split; [vm_compute; reflexivity|]. split; [vm_compute; reflexivity|].
  match goal with |- Forall _ ?l => let t := eval vm_compute in l in change l with t end.
  repeat (constructor; [discriminate|]). constructor.
Qed.

Section OnRealSamples.
Local Open Scope R_scope.

Lemma real_troops_x_limits :
  x_limits real_troops = Ok (fsub (Fin 30) (fdec 5 1), fadd (Fin 31) (fdec 5 1)).
Proof.
  unfold x_limits, series_min, series_max.
  assert (Hcol : getitem real_troops "long" = Ok [CNum (Fin 30); CNum (Fin 31)])
    by reflexivity.
  rewrite Hcol. simpl. unfold nan_min, nan_max. simpl.
  destruct (Rlt_dec 31 30); [lra|]. destruct (Rlt_dec 30 31); [done|lra].
Qed.

Lemma real_troops_formatting :
  (final_formatting real_troops (Fin 54) (Fin 55)).2 = Ok tt.
Proof. by apply (final_formatting_ok _ _ _ _ _ real_troops_x_limits). Qed.

Lemma real_temp_numeric (c : string) :
  c ∈ ["long"; "temp"] → numeric_col real_temp c.
Proof.
  intros Hc r Hr. apply list_elem_of_In in Hr. simpl in Hr.
  rewrite !elem_of_cons, elem_of_nil in Hc.
  destruct Hc as [->|[->|[]]]; destruct Hr as [<-|[<-|[]]]; by eexists.
Qed.

Lemma real_troops_lat :
  series_min real_troops "lat" = Ok (Fin 54) ∧ series_max real_troops "lat" = Ok (Fin 55).
Proof.
  unfold series_min, series_max.
  assert (Hcol : getitem real_troops "lat" = Ok [CNum (Fin 55); CNum (Fin 54)])
    by reflexivity.
  rewrite Hcol. simpl. unfold nan_min, nan_max. simpl.
  destruct (Rlt_dec 54 55); [|lra]. destruct (Rlt_dec 55 54); [lra|done].
Qed.

Lemma temperature_band_sample :
  ∃ lo hi, SetYLim (Fin lo) hi ∈ (final_formatting real_troops (Fin 54) (Fin 55)).1
    ∧ lo = 54 - 28 / 10.
Proof.
  destruct (temperature_band_below_map real_troops real_temp 54 (Fin 55) (Fin (-30)) (Fin 0))
    as (lo & hi & Hin & Hlo & _).
  - reflexivity.
  - apply real_temp_numeric. set_solver.
  - apply real_temp_numeric. set_solver.
  - apply real_temp_min.
  - apply real_temp_max.
  - simpl. destruct (Req_dec_T _ _); [lra|done].
  - apply real_troops_formatting.
  - by exists lo, hi.
Defined.

Lemma missing_survivor_count_sample :
  draw_segment (Fin 400000) Solid real_troops_gap 0
  = ([SetPropCycle;
      Plot [CNum (Fin 30); CNum (Fin 31)] [CNum (Fin 55); CNum (Fin 54)]
           NaN Solid None None], Ok tt).
Proof.
  rewrite (missing_survivor_count_draws_nan real_troops_gap Solid 0
             (troop_row (Fin 1) (Fin 30) (Fin 55) NaN "A" (Fin 1))
             (troop_row (Fin 2) (Fin 31) (Fin 54) (Fin 300000) "A" (Fin 1))
             NaN (Fin 300000) (Fin 400000));
    [reflexivity|reflexivity|reflexivity|reflexivity|reflexivity|reflexivity
    |by left|intros [= H]; lra].
Defined.

End OnRealSamples.
